(** * Vectorized MACD backtesting engine (src/backtesting/engine.py)

    A shallow embedding of [BacktestEngine.run_backtest].  Prices and
    indicator values are modelled as rationals [Q] (exact arithmetic in
    place of IEEE doubles); a pandas series that may hold NaN is a
    [list (option Q)], [None] standing for NaN.  Closes are positive by
    the input contract, so the division by a previous close never hits
    the zero divisor, where [Q] and floats would differ.  Dates are the
    "YYYY-MM-DD" strings produced by the fetcher, so
    [pd.to_datetime] followed by [strftime('%Y-%m-%d')] is the identity
    on them. *)

From Stdlib Require Import String QArith Qabs Qminmax Lqa ZArith Lia Bool List.
Import ListNotations.
Open Scope Q_scope.
Open Scope string_scope.
Open Scope list_scope.

(** ** pandas series operations *)

Definition series := list (option Q).

Fixpoint zipw {A B C : Type} (f : A -> B -> C) (xs : list A) (ys : list B)
  : list C :=
  match xs, ys with
  | x :: xs', y :: ys' => f x y :: zipw f xs' ys'
  | _, _ => []
  end.

(** Binary arithmetic on possibly-NaN cells: NaN is absorbing. *)
Definition omap2 (f : Q -> Q -> Q) (a b : option Q) : option Q :=
  match a, b with
  | Some x, Some y => Some (f x y)
  | _, _ => None
  end.

(** [s.shift(1)]: NaN enters at the front, the last cell drops out. *)
Definition shift1 (s : series) : series := firstn (length s) (None :: s).

(** [s.fillna(0)] *)
Definition fillna0 (s : series) : list Q :=
  map (fun o => match o with Some x => x | None => 0 end) s.

(** [s.pct_change()]: [cur / prev - 1], NaN in the first cell. *)
Definition pct_change (c : list Q) : series :=
  match c with
  | [] => []
  | _ :: rest => None :: zipw (fun prev cur => Some (cur / prev - 1)) c rest
  end.

(** [s.diff()]: [cur - prev], NaN in the first cell. *)
Definition diff (s : series) : series :=
  match s with
  | [] => []
  | _ :: rest => None :: zipw (fun prev cur => omap2 Qminus cur prev) s rest
  end.

(** [s.abs()] *)
Definition sabs (s : series) : series := map (option_map Qabs) s.

(** [s1 * s2] and [s1 - s2] on aligned series. *)
Definition smul (s1 s2 : series) : series := zipw (omap2 Qmult) s1 s2.
Definition ssub (s1 s2 : series) : series := zipw (omap2 Qminus) s1 s2.

(** [s * k] for a scalar [k]. *)
Definition sscale (s : series) (k : Q) : series :=
  map (option_map (fun x => x * k)) s.

(** [s.cumprod()] on a NaN-free series. *)
Fixpoint cumprod_from (acc : Q) (l : list Q) : list Q :=
  match l with
  | [] => []
  | x :: xs => (acc * x) :: cumprod_from (acc * x) xs
  end.

Definition cumprod (l : list Q) : list Q := cumprod_from 1 l.

(** [s.expanding(min_periods=1).max()] on a NaN-free series. *)
Fixpoint cummax_from (acc : Q) (l : list Q) : list Q :=
  match l with
  | [] => []
  | x :: xs => Qmax acc x :: cummax_from (Qmax acc x) xs
  end.

Definition cummax (l : list Q) : list Q :=
  match l with
  | [] => []
  | x :: xs => x :: cummax_from x xs
  end.

(** [s.min()] on a non-empty NaN-free series. *)
Definition smin (l : list Q) : Q :=
  match l with
  | [] => 0
  | x :: xs => fold_left Qmin xs x
  end.

(** Boolean masks used by [len(df[cond])]: a NaN cell compares false
    under [>] and true under [!=]. *)
Definition gt0 (o : option Q) : bool :=
  match o with Some x => negb (Qle_bool x 0) | None => false end.

Definition ne0 (o : option Q) : bool :=
  match o with Some x => negb (Qeq_bool x 0) | None => true end.

Definition count {A : Type} (p : A -> bool) (l : list A) : nat :=
  length (filter p l).

(** ** Data model (contracts.schema) *)

Module StockData.
Record t := mk {
  dates : list string;
  closes : list Q;
  macd : list Q;
  macd_signal : list Q;
  volumes : list Z
}.
End StockData.

Module StrategyConfig.
Record t := mk {
  strategy_name : string;
  initial_capital : Q;
  commission : Q;
  trade_on_close : bool;
  position_type : string
}.
End StrategyConfig.

Module TradeRecord.
Record t := mk {
  entry_date : string;
  exit_date : string;
  entry_price : Q;
  exit_price : Q;
  profit_loss : Q;
  profit_loss_pct : Q;
  duration_days : Z;
  trade_type : string
}.
End TradeRecord.

Module BacktestMetrics.
Record t := mk {
  config : StrategyConfig.t;
  initial_capital : Q;
  final_equity : Q;
  total_trades : nat;
  win_rate : Q;
  max_drawdown : Q;
  total_return : Q;
  market_total_return : Q;
  market_max_drawdown : Q;
  equity_curve : list Q;
  market_equity : list Q;
  drawdown_curve : list Q;
  returns : list Q;
  dates : list string;
  volumes : list Z;
  trades : list TradeRecord.t;
  prices : list Q;
  buy_signals : list nat;
  sell_signals : list nat;
  data_points : nat;
  date_range : string
}.
End BacktestMetrics.

(** The exceptions [run_backtest] can raise on its input: pandas'
    [ValueError] when the columns and the date index differ in length,
    Python's [IndexError] from [equity_curve[-1]] on an empty list,
    [OverflowError] from a float power whose result is too large, and
    [TypeError] from [float()] applied to a complex number. *)
Inductive exn := ValueError | IndexError | OverflowError | TypeError.

Inductive result (A : Type) := Ok (a : A) | Err (e : exn).
Arguments Ok {A} a.
Arguments Err {A} e.

(** ** Signal-to-position translator (engine.py, lines 25-40) *)

Module Frame.
Record t := mk {
  Close : list Q;
  MACD : list Q;
  Signal : list Q;
  Target : list Z;
  Position : series;
  Returns : series;
  Strategy_Returns : series;
  Position_Change : series;
  Commission_Cost : series
}.
End Frame.

(** [np.where(df['MACD'] > df['Signal'], 1, 0)] *)
Definition where_gt (a b : list Q) : list Z :=
  zipw (fun m s => if Qle_bool m s then 0%Z else 1%Z) a b.

(** The columns [Target] .. [Strategy_Returns] of [df]. *)
Definition signals (commission : Q) (close macd signal : list Q) : Frame.t :=
  let target := where_gt macd signal in
  let position :=
    map Some (fillna0 (shift1 (map (fun z => Some (inject_Z z)) target))) in
  let rets := pct_change close in
  let strategy_returns := smul position rets in
  let position_change := sabs (diff position) in
  let commission_cost := sscale position_change commission in
  let strategy_returns' := ssub strategy_returns commission_cost in
  Frame.mk close macd signal target position rets strategy_returns'
    position_change commission_cost.

(** ** Trade-ledger reconstruction (engine.py, lines 106-162) *)

Module Ledger.
Record state := mk {
  position_open : bool;
  entry_idx : nat;
  entry_price : Q;
  trades : list TradeRecord.t;
  buy_signals : list nat;
  sell_signals : list nat
}.

Definition init : state := mk false 0 0 [] [] [].

(** One iteration of [for idx in range(len(df))]. *)
Definition step (commission : Q) (dates : list string)
    (close : list Q) (target : list Z) (st : state) (idx : nat) : state :=
  let current_signal := nth idx target 0%Z in
  if (current_signal =? 1)%Z && negb (position_open st) then
    mk true idx (nth idx close 0) (trades st)
      (buy_signals st ++ [idx]) (sell_signals st)
  else if (current_signal =? 0)%Z && position_open st then
    let exit_price := nth idx close 0 in
    let profit_loss := (exit_price - entry_price st)
                       - (entry_price st * commission * 2) in
    let profit_loss_pct := profit_loss / entry_price st * 100 in
    let duration := (Z.of_nat idx - Z.of_nat (entry_idx st))%Z in
    mk false (entry_idx st) (entry_price st)
      (trades st ++
       [TradeRecord.mk (nth (entry_idx st) dates "") (nth idx dates "")
          (entry_price st) exit_price profit_loss profit_loss_pct
          duration "LONG"])
      (buy_signals st) (sell_signals st ++ [idx])
  else st.

(** [if position_open:] after the loop: close at the last period. *)
Definition close_open (commission : Q) (dates : list string)
    (close : list Q) (st : state) : state :=
  if position_open st then
    let exit_price := last close 0 in
    let profit_loss := (exit_price - entry_price st)
                       - (entry_price st * commission * 2) in
    let profit_loss_pct := profit_loss / entry_price st * 100 in
    let duration :=
      (Z.of_nat (length close) - 1 - Z.of_nat (entry_idx st))%Z in
    mk (position_open st) (entry_idx st) (entry_price st)
      (trades st ++
       [TradeRecord.mk (nth (entry_idx st) dates "") (last dates "")
          (entry_price st) exit_price profit_loss profit_loss_pct
          duration "LONG"])
      (buy_signals st) (sell_signals st ++ [length close - 1]%nat)
  else st.

Definition run (commission : Q) (dates : list string) (close : list Q)
    (target : list Z) : state :=
  close_open commission dates close
    (fold_left (step commission dates close target)
       (seq 0 (length close)) init).
End Ledger.

(** ** [run_backtest] *)

(** Python's [xs[-1]]. *)
Definition py_last {A : Type} (l : list A) : option A :=
  match l with
  | [] => None
  | x :: xs => Some (last xs x)
  end.

(** The tables this model covers: [pd.DataFrame({...}, index=...)] built
    from columns that all have the length of the date index, the input
    contract of the spec.  pandas raises [ValueError] for a column of any
    other length but one, and repeats a column of length one to the
    length of the index.  That repetition is not modelled: the model sends
    such an input to [Err ValueError] as well, so none of the theorems
    about a successful run speaks about it. *)
Definition aligned (data : StockData.t) : bool :=
  let n := length (StockData.closes data) in
  (length (StockData.macd data) =? n)%nat
  && (length (StockData.macd_signal data) =? n)%nat
  && (length (StockData.dates data) =? n)%nat.

(** ** Python's [x ** (1 / years)] with [years = days / 252] *)

(** The three outcomes of a float power. *)
Inductive power_outcome := Finite | Complex | Overflow.

Definition is_complex (p : power_outcome) : bool :=
  match p with Complex => true | _ => false end.

(** Half an ulp above the largest double: a correctly rounded result of
    at least this magnitude rounds to infinity, and [**] raises
    [OverflowError]. *)
Definition overflow_threshold : Q := inject_Z (2 ^ 1024 - 2 ^ 970).

(** [x ** (1 / (days / 252))] for [days >= 1] (lines 58 and 78).  The
    exponent is [252 / days], so [|x| ** (252 / days)] reaches the
    threshold [T] exactly when [|x| ^ 252 >= T ^ days]; [x] is brought
    to lowest terms first, which keeps the power small.  The float
    [1 / (days / 252)] is an integer exactly when [days] divides 252; a
    negative base with a fractional exponent gives a complex number, and
    for that one too a magnitude past the threshold raises
    [OverflowError].  As everywhere in this model the values are exact
    rationals, so the threshold is compared with the exact power; the
    float computation can differ from it by rounding. *)
Definition annualize (x : Q) (days : nat) : power_outcome :=
  if Qle_bool (overflow_threshold ^ Z.of_nat days) (Qabs (Qred x) ^ 252)
  then Overflow
  else if negb (Qle_bool 0 x) && negb (252 mod days =? 0)%nat then Complex
  else Finite.

Definition run_backtest (data : StockData.t) : result BacktestMetrics.t :=
  let initial_capital := 1000000 in
  let commission := 2 # 1000 in
  let config := StrategyConfig.mk "MLStrategy" initial_capital commission
                  true "Long-only" in
  if negb (aligned data) then Err ValueError else
  let df := signals commission (StockData.closes data) (StockData.macd data)
              (StockData.macd_signal data) in
  let cumulative_returns :=
    cumprod (map (Qplus 1) (fillna0 (Frame.Strategy_Returns df))) in
  let equity_curve := map (Qmult initial_capital) cumulative_returns in
  match py_last equity_curve with
  | None => Err IndexError
  | Some final_equity =>
    let market_returns := fillna0 (Frame.Returns df) in
    let market_cumulative := cumprod (map (Qplus 1) market_returns) in
    let market_equity := map (Qmult initial_capital) market_cumulative in
    let total_return := (final_equity / initial_capital - 1) * 100 in
    let winning_trades := count gt0 (Frame.Strategy_Returns df) in
    let total_active_trades := count ne0 (Frame.Strategy_Returns df) in
    let win_rate :=
      if (0 <? total_active_trades)%nat
      then inject_Z (Z.of_nat winning_trades)
           / inject_Z (Z.of_nat total_active_trades) * 100
      else 0 in
    let peak := cummax (map (Qmult initial_capital) cumulative_returns) in
    let drawdown :=
      zipw (fun e p => (e / p - 1) * 100)
        (map (Qmult initial_capital) cumulative_returns) peak in
    let max_drawdown := smin drawdown in
    let market_total_return :=
      (last market_equity 0 / initial_capital - 1) * 100 in
    let market_peak := cummax (map (Qmult initial_capital) market_cumulative) in
    let market_drawdown :=
      zipw (fun e p => (e / p - 1) * 100)
        (map (Qmult initial_capital) market_cumulative) market_peak in
    let market_max_drawdown := smin market_drawdown in
    let returns_list := fillna0 (Frame.Strategy_Returns df) in
    let L := Ledger.run commission (StockData.dates data)
               (StockData.closes data) (Frame.Target df) in
    let date_range :=
      (nth 0 (StockData.dates data) "" ++ " to "
       ++ last (StockData.dates data) "")%string in
    let days := length (StockData.closes data) in
    match annualize (final_equity / initial_capital) days with
    | Overflow => Err OverflowError
    | cagr =>
    match annualize (last market_equity 0 / initial_capital) days with
    | Overflow => Err OverflowError
    | market_annual_return =>
    if is_complex cagr || is_complex market_annual_return then Err TypeError
    else
    Ok (BacktestMetrics.mk config initial_capital final_equity
          (length (Ledger.trades L)) win_rate max_drawdown total_return
          market_total_return market_max_drawdown equity_curve market_equity
          drawdown returns_list (StockData.dates data)
          (StockData.volumes data) (Ledger.trades L) (StockData.closes data)
          (Ledger.buy_signals L) (Ledger.sell_signals L)
          (length (StockData.closes data)) date_range)
    end
    end
  end.

(** The scenario of the spec's testable property 7. *)
Definition scenario : StockData.t :=
  StockData.mk
    ["2024-01-01"; "2024-01-02"; "2024-01-03"; "2024-01-04"; "2024-01-05"]%string
    [100; 100; 110; 110; 90] [1; 1; 2; -1; -1] [0; 0; 1; 0; 0]
    [1; 1; 1; 1; 1]%Z.

(** Two periods, long from the second one: the first period's NaN
    return is counted by [!= 0] but not by [> 0]. *)
Definition win_rate_input : StockData.t :=
  StockData.mk ["2024-01-01"; "2024-01-02"]%string [100; 110] [1; 1] [0; 0]
    [1; 1]%Z.

Definition empty_input : StockData.t := StockData.mk [] [] [] [] [].

(** The price rises a thousandfold over two periods: the market's
    annualised return [1000 ** 126] exceeds the largest float. *)
Definition overflow_input : StockData.t :=
  StockData.mk ["2024-01-01"; "2024-01-02"]%string [1; 1000] [0; 0] [0; 0]
    [1; 1]%Z.

(** Long in the second period while the price falls by 99.9%: with the
    commission the final equity is negative, and over five periods the
    exponent [252 / 5] is fractional. *)
Definition negative_equity_input : StockData.t :=
  StockData.mk
    ["2024-01-01"; "2024-01-02"; "2024-01-03"; "2024-01-04"; "2024-01-05"]%string
    [100; 1 # 10; 1 # 10; 1 # 10; 1 # 10] [1; 0; 0; 0; 0] [0; 0; 0; 0; 0]
    [1; 1; 1; 1; 1]%Z.

(** Long in the second period while the price halves. *)
Definition drawdown_input : StockData.t :=
  StockData.mk ["2024-01-01"; "2024-01-02"]%string [100; 50] [1; 1] [0; 0]
    [1; 1]%Z.

(** [MACD > Signal] at every period. *)
Definition always_long_input : StockData.t :=
  StockData.mk ["2024-01-01"; "2024-01-02"; "2024-01-03"]%string
    [100; 110; 121] [1; 1; 1] [0; 0; 0] [1; 1; 1]%Z.

Definition empty_metrics : BacktestMetrics.t :=
  BacktestMetrics.mk (StrategyConfig.mk "" 0 0 false "") 0 0 0 0 0 0 0 0
    [] [] [] [] [] [] [] [] [] [] 0 "".

(** The report of a run, [empty_metrics] when it raises. *)
Definition metrics_of (d : StockData.t) : BacktestMetrics.t :=
  match run_backtest d with Ok m => m | Err _ => empty_metrics end.

(** The win rate as the spec words it: leading undefined values are
    zero before counting, so they never enter the denominator. *)
Definition spec_win_rate (r : list Q) : Q :=
  let w := count (fun x => negb (Qle_bool x 0)) r in
  let a := count (fun x => negb (Qeq_bool x 0)) r in
  if (0 <? a)%nat then inject_Z (Z.of_nat w) / inject_Z (Z.of_nat a) * 100
  else 0.

(** ** Reference formulations taken from the spec's words *)

(** [Π xs] *)
Definition prod (l : list Q) : Q := fold_right Qmult 1 l.

(** Trade boundaries as the spec describes the scan: while flat, the
    first period with [Target == 1] opens a trade; while open, the next
    period with [Target == 0] closes it; a trade still open after the
    last period is closed at index [last_idx]. *)
Fixpoint spec_flat (target : list Z) (last_idx : nat) (idxs : list nat)
  : list (nat * nat) :=
  match idxs with
  | [] => []
  | i :: rest =>
    if (nth i target 0 =? 1)%Z then spec_open target last_idx i rest
    else spec_flat target last_idx rest
  end
with spec_open (target : list Z) (last_idx : nat) (e : nat)
  (idxs : list nat) : list (nat * nat) :=
  match idxs with
  | [] => [(e, last_idx)]
  | i :: rest =>
    if (nth i target 0 =? 0)%Z then (e, i) :: spec_flat target last_idx rest
    else spec_open target last_idx e rest
  end.

(** The record of a trade entered at [e] and left at [x], with
    [PL = (ExitPrice - EntryPrice) - EntryPrice*commissionRate*2],
    [PL% = PL/EntryPrice*100] and [Duration = exitIndex - entryIndex]. *)
Definition spec_trade (commission : Q) (dates : list string)
    (close : list Q) (ex : nat * nat) : TradeRecord.t :=
  let '(e, x) := ex in
  let entry := nth e close 0 in
  let exit := nth x close 0 in
  let pl := (exit - entry) - entry * commission * 2 in
  TradeRecord.mk (nth e dates "") (nth x dates "") entry exit pl
    (pl / entry * 100) (Z.of_nat x - Z.of_nat e) "LONG".

Definition spec_ledger (commission : Q) (dates : list string)
    (close : list Q) (target : list Z) : list TradeRecord.t :=
  map (spec_trade commission dates close)
    (spec_flat target (length close - 1) (seq 0 (length close))).

(** Trades [(entry, exit)] are ordered and never overlap: each starts
    no earlier than [lo] and at or before its own exit, and the next
    trade starts strictly after that exit. *)
Fixpoint non_overlapping (lo : nat) (ps : list (nat * nat)) : Prop :=
  match ps with
  | [] => True
  | (e, x) :: rest => (lo <= e <= x)%nat /\ non_overlapping (S x) rest
  end.

(** ** Statistics outside the report record *)

(** [s.mean()]: the mean of the defined cells, NaN when there is none. *)
Definition smean (s : series) : option Q :=
  let xs := flat_map (fun o => match o with Some x => [x] | None => [] end) s in
  match xs with
  | [] => None
  | _ => Some (fold_right Qplus 0 xs / inject_Z (Z.of_nat (length xs)))
  end.

(** [df[mask][col]]: the cells of [col] at the rows where [mask] holds. *)
Definition select {A : Type} (mask : list bool) (col : list A) : list A :=
  map snd (filter fst (combine mask col)).

(** [avg_trade_return] (engine.py, line 74): the mean net return over
    the rows with [Position_Change > 0], in percent; [0] when there is
    no such row.  [None] is the NaN of a mean over NaN cells only. *)
Definition avg_trade_return (df : Frame.t) : option Q :=
  let rows := select (map gt0 (Frame.Position_Change df))
                (Frame.Strategy_Returns df) in
  if (0 <? length rows)%nat
  then option_map (fun x => x * 100) (smean rows)
  else Some 0.

(** [Signal_Strength = |MACD - Signal| / Close] (engine.py, line 99).
    Closes are positive by the input contract, so the division by zero
    where [Q] and floats differ does not arise. *)
Definition signal_strength (df : Frame.t) : list Q :=
  zipw (fun dm c => Qabs dm / c)
    (zipw Qminus (Frame.MACD df) (Frame.Signal df)) (Frame.Close df).

(** [confidence_ratio] (engine.py, lines 100-101): the mean strength
    over the rows with [Target == 1], scaled by 1000; the default 50
    replaces the NaN of an empty selection. *)
Definition confidence_ratio (df : Frame.t) : Q :=
  let rows := select (map (fun z => (z =? 1)%Z) (Frame.Target df))
                (signal_strength df) in
  match smean (map Some rows) with
  | Some x => x * 1000
  | None => 50
  end.

(** ** Trade-history summary (src/ui/components/metrics.py, lines 244-247) *)

Module TradeSummary.
Record t := mk {
  winning_trades : nat;
  losing_trades : nat;
  avg_win : Q;
  avg_loss : Q
}.
End TradeSummary.

Definition sumq (l : list Q) : Q := fold_right Qplus 0 l.

Definition trade_summary (trades : list TradeRecord.t) : TradeSummary.t :=
  let wins := filter (fun t => negb (Qle_bool (TradeRecord.profit_loss t) 0))
                trades in
  let losses := filter (fun t => Qle_bool (TradeRecord.profit_loss t) 0)
                  trades in
  let winning_trades := length wins in
  let losing_trades := length losses in
  let avg_win :=
    if (0 <? winning_trades)%nat
    then sumq (map TradeRecord.profit_loss wins)
         / inject_Z (Z.of_nat winning_trades)
    else 0 in
  let avg_loss :=
    if (0 <? losing_trades)%nat
    then sumq (map TradeRecord.profit_loss losses)
         / inject_Z (Z.of_nat losing_trades)
    else 0 in
  TradeSummary.mk winning_trades losing_trades avg_win avg_loss.

(** ** Helpers of the further properties *)

(** Each trade of the scan opens on a [Target == 1] period and closes on
    a later [Target == 0] period or at the last one. *)
Definition scan_trade_ok (target : list Z) (n : nat) (ex : nat * nat) : Prop :=
  (nth (fst ex) target 0 = 1)%Z /\ (snd ex < n)%nat
  /\ ((nth (snd ex) target 0 = 0)%Z \/ snd ex = (n - 1)%nat).

(** The lagged position [Position[t]] of a run as a plain function. *)
Definition run_lag (target : list Z) (t : nat) : Q :=
  match t with O => 0 | S j => inject_Z (nth j target 0%Z) end.

(** The lagged position [Position[t] = Target[t-1]], [0] at [t = 0]. *)
Definition lagged_target (target : list Z) (t : nat) : Z :=
  match t with O => 0%Z | S j => nth j target 0%Z end.

(** [MACD <= Signal] at every period. *)
Definition flat_input : StockData.t :=
  StockData.mk ["2024-01-01"; "2024-01-02"]%string [100; 110] [0; 0] [1; 1]
    [1; 1]%Z.

(** ** Lemmas on the series operations *)

Lemma length_zipw {A B C} (f : A -> B -> C) xs ys :
  length (zipw f xs ys) = Nat.min (length xs) (length ys).
Proof.
  revert ys; induction xs as [|x xs IH]; intros [|y ys]; simpl; auto.
Qed.

Lemma nth_zipw {A B C} (f : A -> B -> C) xs ys i da db dc :
  (i < length xs)%nat -> (i < length ys)%nat ->
  nth i (zipw f xs ys) dc = f (nth i xs da) (nth i ys db).
Proof.
  revert ys i; induction xs as [|x xs IH]; intros [|y ys] [|i] Hx Hy;
    simpl in *; try lia; auto.
  apply IH; lia.
Qed.

Lemma length_shift1 s : length (shift1 s) = length s.
Proof.
  unfold shift1; rewrite length_firstn; simpl; lia.
Qed.

Lemma nth_shift1 s i :
  (i < length s)%nat ->
  nth i (shift1 s) None = match i with O => None | S j => nth j s None end.
Proof.
  intros H; unfold shift1; rewrite nth_firstn.
  destruct (Nat.ltb_spec i (length s)); [|lia]; simpl; destruct i; auto.
Qed.

Lemma length_pct_change c : length (pct_change c) = length c.
Proof.
  destruct c as [|x c]; [reflexivity|].
  unfold pct_change; cbn [length]; rewrite length_zipw; cbn [length]; lia.
Qed.

Lemma nth_pct_change_0 c : c <> [] -> nth 0 (pct_change c) None = None.
Proof. destruct c; simpl; congruence. Qed.

Lemma nth_pct_change_S c j :
  (S j < length c)%nat ->
  nth (S j) (pct_change c) None
  = Some (nth (S j) c 0 / nth j c 0 - 1).
Proof.
  intros H; destruct c as [|x c]; [simpl in H; lia|].
  unfold pct_change; cbn [nth].
  rewrite (nth_zipw _ _ _ _ 0 0); cbn [length] in *; try lia; reflexivity.
Qed.

Lemma length_diff s : length (diff s) = length s.
Proof.
  destruct s as [|x s]; [reflexivity|].
  unfold diff; cbn [length]; rewrite length_zipw; cbn [length]; lia.
Qed.

Lemma nth_diff_0 s : s <> [] -> nth 0 (diff s) None = None.
Proof. destruct s; simpl; congruence. Qed.

Lemma nth_diff_S s j :
  (S j < length s)%nat ->
  nth (S j) (diff s) None = omap2 Qminus (nth (S j) s None) (nth j s None).
Proof.
  intros H; destruct s as [|x s]; [simpl in H; lia|].
  unfold diff; cbn [nth].
  rewrite (nth_zipw _ _ _ _ None None); cbn [length] in *; try lia;
    reflexivity.
Qed.

Lemma nth_map_opt {A B} (f : A -> B) l i d d' :
  (i < length l)%nat -> nth i (map f l) d' = f (nth i l d).
Proof.
  intros H; rewrite (nth_indep _ d' (f d)) by (rewrite length_map; lia).
  apply map_nth.
Qed.

Lemma nth_fillna0 s i :
  nth i (fillna0 s) 0 = match nth i s None with Some x => x | None => 0 end.
Proof.
  revert i; induction s as [|o s IH]; intros [|i]; simpl; auto.
Qed.

Lemma length_fillna0 s : length (fillna0 s) = length s.
Proof. apply length_map. Qed.

(** ** The translator, column by column *)

Section Translator.
Variables (commission : Q) (close macd signal : list Q).
Hypothesis Hmacd : length macd = length close.
Hypothesis Hsignal : length signal = length close.

Let f := signals commission close macd signal.
Let n := length close.

(** [Position] as a plain function of [Target]. *)
Let lag (t : nat) : Q :=
  match t with O => 0 | S j => inject_Z (nth j (Frame.Target f) 0%Z) end.

Lemma length_Target : length (Frame.Target f) = n.
Proof.
  unfold f, n, signals, where_gt; simpl.
  rewrite length_zipw; lia.
Qed.

Lemma nth_Target t :
  (t < n)%nat ->
  nth t (Frame.Target f) 0%Z
  = if Qle_bool (nth t macd 0) (nth t signal 0) then 0%Z else 1%Z.
Proof.
  intros H; unfold f, signals, where_gt; simpl.
  rewrite (nth_zipw _ _ _ _ 0 0); unfold n in *; [reflexivity|lia|lia].
Qed.

Lemma length_Position : length (Frame.Position f) = n.
Proof.
  unfold f, signals; simpl.
  rewrite length_map, length_fillna0, length_shift1, length_map.
  apply length_Target.
Qed.

Lemma nth_Position t :
  (t < n)%nat -> nth t (Frame.Position f) None = Some (lag t).
Proof.
  intros H; pose proof length_Target as HT.
  unfold lag; change (Frame.Position f) with
    (map Some (fillna0 (shift1 (map (fun z => Some (inject_Z z))
                                    (Frame.Target f))))).
  rewrite (nth_map_opt _ _ _ 0) by (rewrite length_fillna0, length_shift1,
                                    length_map; lia).
  rewrite nth_fillna0, nth_shift1 by (rewrite length_map; lia).
  destruct t as [|j]; auto.
  rewrite (nth_map_opt _ _ _ 0%Z) by lia; reflexivity.
Qed.

Lemma length_Returns : length (Frame.Returns f) = n.
Proof. apply length_pct_change. Qed.

Lemma length_Strategy_Returns : length (Frame.Strategy_Returns f) = n.
Proof.
  pose proof length_Position as HP.
  change (Frame.Strategy_Returns f) with
    (ssub (smul (Frame.Position f) (pct_change close))
       (sscale (sabs (diff (Frame.Position f))) commission)).
  unfold ssub, smul, sscale, sabs.
  rewrite !length_zipw, !length_map, length_diff, length_pct_change.
  unfold n in *; lia.
Qed.

Lemma nth_Strategy_Returns_0 :
  close <> [] -> nth 0 (Frame.Strategy_Returns f) None = None.
Proof.
  intros Hne; pose proof length_Position as HP.
  assert (Hn : (0 < n)%nat)
    by (unfold n; destruct close; [congruence|simpl; lia]).
  change (Frame.Strategy_Returns f) with
    (ssub (smul (Frame.Position f) (pct_change close))
       (sscale (sabs (diff (Frame.Position f))) commission)).
  unfold ssub, smul.
  rewrite (nth_zipw _ _ _ _ None None) by
    (unfold sscale, sabs; rewrite ?length_zipw, ?length_map, ?length_diff,
       ?length_pct_change; unfold n in *; lia).
  rewrite (nth_zipw _ _ _ _ None None) by
    (rewrite ?length_pct_change; unfold n in *; lia).
  rewrite nth_pct_change_0 by exact Hne.
  destruct (nth 0 (Frame.Position f) None); reflexivity.
Qed.

Lemma nth_Strategy_Returns_S j :
  (S j < n)%nat ->
  nth (S j) (Frame.Strategy_Returns f) None
  = Some (lag (S j) * (nth (S j) close 0 / nth j close 0 - 1)
          - Qabs (lag (S j) - lag j) * commission).
Proof.
  intros H; pose proof length_Position as HP.
  change (Frame.Strategy_Returns f) with
    (ssub (smul (Frame.Position f) (pct_change close))
       (sscale (sabs (diff (Frame.Position f))) commission)).
  unfold ssub, smul, sscale, sabs.
  rewrite (nth_zipw _ _ _ _ None None) by
    (rewrite ?length_zipw, ?length_map, ?length_diff,
       ?length_pct_change; unfold n in *; lia).
  rewrite (nth_zipw _ _ _ _ None None) by
    (rewrite ?length_pct_change; unfold n in *; lia).
  rewrite (nth_map_opt _ _ _ None) by (rewrite length_map, length_diff; lia).
  rewrite (nth_map_opt _ _ _ None) by (rewrite length_diff; lia).
  rewrite nth_diff_S by lia.
  rewrite nth_pct_change_S by (unfold n in *; lia).
  rewrite !nth_Position by lia.
  reflexivity.
Qed.
End Translator.

(** ** C1: the translator's formulas *)

(** C1. For aligned close/MACD/signal series: [Target[t] = 1] iff
    [MACD[t] > Signal[t]] (strictly; ties are flat); [Position[0] = 0]
    and [Position[t] = Target[t-1]] for [t > 0]; and for [t > 0]
    [NetStrategyReturn[t] = Position[t]*(Close[t]/Close[t-1] - 1)
     - |Position[t] - Position[t-1]| * commissionRate].  At [t = 0] the
    net return is pandas' NaN (no previous close). *)
Theorem translator_formulas :
  forall commission close macd signal,
  length macd = length close -> length signal = length close ->
  let f := signals commission close macd signal in
  let pos t := nth t (fillna0 (Frame.Position f)) 0 in
  length (Frame.Target f) = length close
  /\ length (Frame.Position f) = length close
  /\ length (Frame.Strategy_Returns f) = length close
  /\ (forall t, (t < length close)%nat ->
        nth t (Frame.Target f) 0%Z
        = if Qlt_le_dec (nth t signal 0) (nth t macd 0) then 1%Z else 0%Z)
  /\ (close <> [] -> nth 0 (Frame.Position f) None = Some 0)
  /\ (forall t, (0 < t < length close)%nat ->
        nth t (Frame.Position f) None
        = Some (inject_Z (nth (t - 1)%nat (Frame.Target f) 0%Z)))
  /\ (close <> [] -> nth 0 (Frame.Strategy_Returns f) None = None)
  /\ (forall t, (0 < t < length close)%nat ->
        nth t (Frame.Strategy_Returns f) None
        = Some (pos t * (nth t close 0 / nth (t - 1)%nat close 0 - 1)
                - Qabs (pos t - pos (t - 1)%nat) * commission)).
Proof.
  intros commission close macd signal Hm Hs f pos.
  assert (Hpos : forall t, (t < length close)%nat ->
            pos t = match t with
                    | O => 0
                    | S j => inject_Z (nth j (Frame.Target f) 0%Z)
                    end).
  { intros t Ht; unfold pos; rewrite nth_fillna0.
    unfold f; rewrite nth_Position by assumption; reflexivity. }
  split; [apply length_Target; assumption|].
  split; [apply length_Position; assumption|].
  split; [apply length_Strategy_Returns; assumption|].
  split.
  { intros t Ht; unfold f; rewrite nth_Target by assumption.
    destruct (Qlt_le_dec (nth t signal 0) (nth t macd 0)) as [Hlt|Hle];
      destruct (Qle_bool (nth t macd 0) (nth t signal 0)) eqn:E; auto.
    - apply Qle_bool_iff in E; exfalso; apply (Qlt_not_le _ _ Hlt E).
    - exfalso; apply not_true_iff_false in E; apply E, Qle_bool_iff, Hle. }
  split.
  { intros Hne; unfold f; rewrite nth_Position; auto.
    destruct close; [congruence|simpl; lia]. }
  split.
  { intros [|j] [H0 Ht]; [lia|].
    unfold f; rewrite nth_Position by auto.
    replace (S j - 1)%nat with j by lia; reflexivity. }
  split.
  { intros Hne; apply nth_Strategy_Returns_0; assumption. }
  intros [|j] [H0 Ht]; [lia|].
  replace (S j - 1)%nat with j by lia.
  unfold f; rewrite nth_Strategy_Returns_S by auto.
  rewrite (Hpos (S j)) by lia; rewrite (Hpos j) by lia.
  destruct j; reflexivity.
Qed.

(** ** C4: no lookahead *)

(** C4. Changing only [MACD[t]] and/or [Signal[t]] changes neither
    [Position[t]] nor the net strategy return at period [t];
    [Position[t]] is [Target[t-1]] ([0] at [t = 0]). *)
Theorem no_lookahead :
  forall commission close macd macd' signal signal' t,
  length macd = length close -> length signal = length close ->
  length macd' = length close -> length signal' = length close ->
  (forall i, i <> t -> nth i macd 0 = nth i macd' 0) ->
  (forall i, i <> t -> nth i signal 0 = nth i signal' 0) ->
  let f := signals commission close macd signal in
  let f' := signals commission close macd' signal' in
  nth t (Frame.Position f) None = nth t (Frame.Position f') None
  /\ nth t (Frame.Strategy_Returns f) None
     = nth t (Frame.Strategy_Returns f') None
  /\ ((0 < t < length close)%nat ->
      nth t (Frame.Position f) None
      = Some (inject_Z (nth (t - 1)%nat (Frame.Target f) 0%Z))).
Proof.
  intros commission close macd macd' signal signal' t Hm Hs Hm' Hs' Eqm Eqs
    f f'.
  assert (HT : forall i, i <> t -> (i < length close)%nat ->
             nth i (Frame.Target f) 0%Z = nth i (Frame.Target f') 0%Z).
  { intros i Hi Hn; unfold f, f'; rewrite !nth_Target by auto.
    rewrite (Eqm i Hi), (Eqs i Hi); reflexivity. }
  destruct (Nat.ltb_spec t (length close)) as [Hlt|Hge].
  2:{ split; [|split; [|intros [? ?]; lia]]; unfold f, f';
      rewrite !nth_overflow; auto;
      rewrite ?length_Position, ?length_Strategy_Returns; auto; lia. }
  split; [|split].
  - unfold f, f'; rewrite !nth_Position by auto.
    destruct t as [|j]; auto.
    fold f f'; rewrite HT by lia; reflexivity.
  - destruct t as [|j].
    + unfold f, f'; rewrite !nth_Strategy_Returns_0 by
        (destruct close; [simpl in Hlt; lia|congruence]); reflexivity.
    + unfold f, f'; rewrite !nth_Strategy_Returns_S by auto.
      fold f f'; rewrite (HT j) by lia.
      destruct j; [reflexivity|].
      rewrite (HT j) by lia; reflexivity.
  - intros [H0 Ht]; destruct t as [|j]; [lia|].
    unfold f; rewrite nth_Position by auto.
    replace (S j - 1)%nat with j by lia; reflexivity.
Qed.

(** ** Products, running maxima and minima *)

Lemma nth_cumprod_from l acc t :
  (t < length l)%nat ->
  nth t (cumprod_from acc l) 0 == acc * prod (firstn (S t) l).
Proof.
  revert acc t; induction l as [|x l IH]; intros acc [|t] H;
    simpl in *; try lia.
  - ring.
  - rewrite IH by lia; simpl; ring.
Qed.

Lemma length_cumprod_from l acc : length (cumprod_from acc l) = length l.
Proof.
  revert acc; induction l as [|x l IH]; intros acc; simpl; auto.
Qed.

Lemma last_cons {A} (l : list A) x d : last (x :: l) d = last l x.
Proof.
  revert x d; induction l as [|y l IH]; intros x d; auto.
  change (last (x :: y :: l) d) with (last (y :: l) d).
  rewrite (IH y d); symmetry; apply IH.
Qed.

Lemma py_last_last {A} (l : list A) v d : py_last l = Some v -> v = last l d.
Proof.
  destruct l as [|x l]; [discriminate|].
  intros H; cbn [py_last] in H; injection H as <-.
  rewrite last_cons; reflexivity.
Qed.

Lemma cummax_from_spec l acc t :
  (t < length l)%nat ->
  let p := nth t (cummax_from acc l) 0 in
  acc <= p /\ (forall i, (i <= t)%nat -> nth i l 0 <= p)
  /\ (p == acc \/ exists i, (i <= t)%nat /\ p == nth i l 0).
Proof.
  revert acc t; induction l as [|x l IH]; intros acc t H p;
    simpl in H; [lia|].
  destruct t as [|t]; simpl in p.
  - split; [apply Q.le_max_l|split].
    + intros [|i] Hi; [apply Q.le_max_r|lia].
    + destruct (Q.max_spec_le acc x) as [[Hle E]|[Hle E]].
      * right; exists 0%nat; split; [lia|exact E].
      * left; exact E.
  - destruct (IH (Qmax acc x) t ltac:(lia)) as (H1 & H2 & H3).
    fold p in H1, H2, H3.
    assert (Hacc : acc <= Qmax acc x) by apply Q.le_max_l.
    assert (Hx : x <= Qmax acc x) by apply Q.le_max_r.
    split; [|split].
    + eapply Qle_trans; eauto.
    + intros [|i] Hi; [eapply Qle_trans; eauto|apply H2; lia].
    + destruct H3 as [H3|(i & Hi & H3)].
      * destruct (Q.max_spec_le acc x) as [[Hle E]|[Hle E]].
        -- right; exists 0%nat; split; [lia|]; rewrite H3, E; reflexivity.
        -- left; rewrite H3, E; reflexivity.
      * right; exists (S i); split; [lia|exact H3].
Qed.

Lemma cummax_spec l t :
  (t < length l)%nat ->
  let p := nth t (cummax l) 0 in
  (forall i, (i <= t)%nat -> nth i l 0 <= p)
  /\ exists i, (i <= t)%nat /\ p == nth i l 0.
Proof.
  destruct l as [|x l]; intros H p; simpl in H; [lia|].
  destruct t as [|t]; simpl in p.
  - split; [intros [|i] Hi; [apply Qle_refl|lia]|].
    exists 0%nat; split; [lia|reflexivity].
  - destruct (cummax_from_spec l x t ltac:(lia)) as (H1 & H2 & H3).
    fold p in H1, H2, H3; split.
    + intros [|i] Hi; [exact H1|apply H2; lia].
    + destruct H3 as [H3|(i & Hi & H3)].
      * exists 0%nat; split; [lia|exact H3].
      * exists (S i); split; [lia|exact H3].
Qed.

Lemma length_cummax l : length (cummax l) = length l.
Proof.
  destruct l as [|x l]; simpl; auto.
  f_equal; revert x; induction l as [|y l IH]; intros x; simpl; auto.
Qed.

Lemma fold_min_spec l acc :
  let m := fold_left Qmin l acc in
  m <= acc /\ (forall i, (i < length l)%nat -> m <= nth i l 0)
  /\ (m == acc \/ exists i, (i < length l)%nat /\ m == nth i l 0).
Proof.
  revert acc; induction l as [|x l IH]; intros acc m; simpl in m.
  - split; [apply Qle_refl|split; [intros i Hi; simpl in Hi; lia|]].
    left; reflexivity.
  - destruct (IH (Qmin acc x)) as (H1 & H2 & H3); fold m in H1, H2, H3.
    assert (Hacc : Qmin acc x <= acc) by apply Q.le_min_l.
    assert (Hx : Qmin acc x <= x) by apply Q.le_min_r.
    split; [eapply Qle_trans; eauto|split].
    + intros [|i] Hi; simpl; [eapply Qle_trans; eauto|apply H2; simpl in Hi; lia].
    + destruct H3 as [H3|(i & Hi & H3)].
      * destruct (Q.min_spec_le acc x) as [[Hle E]|[Hle E]].
        -- left; rewrite H3, E; reflexivity.
        -- right; exists 0%nat; split; [simpl; lia|]; rewrite H3, E;
             reflexivity.
      * right; exists (S i); split; [simpl; lia|exact H3].
Qed.

Lemma smin_spec l :
  l <> [] ->
  (forall t, (t < length l)%nat -> smin l <= nth t l 0)
  /\ exists t, (t < length l)%nat /\ smin l == nth t l 0.
Proof.
  destruct l as [|x l]; [congruence|intros _; simpl].
  destruct (fold_min_spec l x) as (H1 & H2 & H3); split.
  - intros [|t] Ht; [exact H1|apply H2; lia].
  - destruct H3 as [H3|(i & Hi & H3)].
    + exists 0%nat; split; [lia|exact H3].
    + exists (S i); split; [lia|exact H3].
Qed.

(** ** What a successful run returns *)

(** Follows a run [H : run_backtest d = Ok m] through its cases, dropping
    those that end in an exception. *)
Ltac run_cases H :=
  repeat match type of H with
  | match ?e with _ => _ end = _ =>
      destruct e eqn:?; try discriminate H; cbv beta iota in H
  end.

Section Run.
Variables (d : StockData.t) (m : BacktestMetrics.t).
Hypothesis Hrun : run_backtest d = Ok m.

Let f := signals (2 # 1000) (StockData.closes d) (StockData.macd d)
           (StockData.macd_signal d).

Lemma run_aligned : aligned d = true.
Proof.
  unfold run_backtest in Hrun; destruct (aligned d); [reflexivity|].
  discriminate.
Qed.

Lemma run_lengths :
  length (StockData.macd d) = length (StockData.closes d)
  /\ length (StockData.macd_signal d) = length (StockData.closes d)
  /\ length (StockData.dates d) = length (StockData.closes d).
Proof.
  pose proof run_aligned as H; unfold aligned in H.
  apply andb_prop in H as [H H3]; apply andb_prop in H as [H1 H2].
  apply Nat.eqb_eq in H1, H2, H3; auto.
Qed.

Lemma run_fields :
  BacktestMetrics.config m
  = StrategyConfig.mk "MLStrategy" 1000000 (2 # 1000) true "Long-only"
  /\ BacktestMetrics.initial_capital m = 1000000
  /\ BacktestMetrics.returns m = fillna0 (Frame.Strategy_Returns f)
  /\ BacktestMetrics.equity_curve m
     = map (Qmult 1000000) (cumprod (map (Qplus 1) (BacktestMetrics.returns m)))
  /\ py_last (BacktestMetrics.equity_curve m)
     = Some (BacktestMetrics.final_equity m)
  /\ BacktestMetrics.market_equity m
     = map (Qmult 1000000)
         (cumprod (map (Qplus 1) (fillna0 (Frame.Returns f))))
  /\ BacktestMetrics.drawdown_curve m
     = zipw (fun e p => (e / p - 1) * 100) (BacktestMetrics.equity_curve m)
         (cummax (BacktestMetrics.equity_curve m))
  /\ BacktestMetrics.max_drawdown m = smin (BacktestMetrics.drawdown_curve m)
  /\ BacktestMetrics.trades m
     = Ledger.trades (Ledger.run (2 # 1000) (StockData.dates d)
                        (StockData.closes d) (Frame.Target f))
  /\ BacktestMetrics.win_rate m
     = (let w := count gt0 (Frame.Strategy_Returns f) in
        let a := count ne0 (Frame.Strategy_Returns f) in
        if (0 <? a)%nat then inject_Z (Z.of_nat w) / inject_Z (Z.of_nat a) * 100
        else 0).
Proof.
  pose proof Hrun as H; unfold run_backtest in H.
  destruct (aligned d); [|discriminate]; cbv zeta in H; simpl negb in H.
  cbv iota in H; run_cases H.
  injection H as <-; simpl.
  repeat split; auto.
Qed.

Lemma run_nonempty : StockData.closes d <> [].
Proof.
  destruct run_lengths as (H1 & H2 & _).
  destruct run_fields as (_ & _ & Hr & He & Hl & _).
  intros E.
  assert (L : length (BacktestMetrics.equity_curve m) = 0%nat).
  { rewrite He, Hr; unfold cumprod.
    rewrite length_map, length_cumprod_from, length_map, length_fillna0.
    unfold f; rewrite length_Strategy_Returns by auto; rewrite E; auto. }
  destruct (BacktestMetrics.equity_curve m); [discriminate|discriminate].
Qed.

Lemma run_length_equity :
  length (BacktestMetrics.equity_curve m) = length (StockData.closes d)
  /\ length (BacktestMetrics.returns m) = length (StockData.closes d).
Proof.
  destruct run_lengths as (H1 & H2 & _).
  destruct run_fields as (_ & _ & Hr & He & _).
  assert (Lr : length (BacktestMetrics.returns m)
               = length (StockData.closes d)).
  { rewrite Hr, length_fillna0; unfold f.
    apply length_Strategy_Returns; auto. }
  split; auto.
  rewrite He; unfold cumprod.
  rewrite length_map, length_cumprod_from, length_map; auto.
Qed.

Lemma run_returns_0 : nth 0 (BacktestMetrics.returns m) 0 = 0.
Proof.
  destruct run_lengths as (H1 & H2 & _).
  destruct run_fields as (_ & _ & Hr & _).
  rewrite Hr, nth_fillna0; unfold f.
  rewrite nth_Strategy_Returns_0 by (auto using run_nonempty).
  reflexivity.
Qed.
End Run.

Lemma nth_scaled_cumprod (k : Q) l t :
  (t < length l)%nat ->
  nth t (map (Qmult k) (cumprod l)) 0 == k * prod (firstn (S t) l).
Proof.
  intros H; unfold cumprod.
  rewrite (nth_map_opt _ _ _ 0) by (rewrite length_cumprod_from; auto).
  rewrite nth_cumprod_from by auto; ring.
Qed.

(** ** C2: equity consistency *)

(** C2. For a successful run, the reported per-period returns are the
    net strategy returns with the undefined first value filled by [0],
    and [Equity[t] = capital * Π_{i<=t} (1 + NetStrategyReturn[i])] for
    every period; [final_equity] is the curve's last element. *)
Theorem equity_consistency :
  forall d m, run_backtest d = Ok m ->
  BacktestMetrics.returns m
  = fillna0 (Frame.Strategy_Returns
               (signals (2 # 1000) (StockData.closes d) (StockData.macd d)
                  (StockData.macd_signal d)))
  /\ nth 0 (BacktestMetrics.returns m) 0 = 0
  /\ length (BacktestMetrics.equity_curve m) = length (StockData.closes d)
  /\ (forall t, (t < length (BacktestMetrics.equity_curve m))%nat ->
        nth t (BacktestMetrics.equity_curve m) 0
        == BacktestMetrics.initial_capital m
           * prod (firstn (S t) (map (Qplus 1) (BacktestMetrics.returns m))))
  /\ BacktestMetrics.final_equity m = last (BacktestMetrics.equity_curve m) 0.
Proof.
  intros d m Hrun.
  destruct (run_fields d m Hrun) as (_ & Hcap & Hr & He & Hl & _).
  destruct (run_length_equity d m Hrun) as [Le Lr].
  split; [exact Hr|].
  split; [apply (run_returns_0 d m Hrun)|].
  split; [exact Le|].
  split.
  - intros t Ht; rewrite Hcap.
    rewrite He at 1; apply nth_scaled_cumprod.
    rewrite length_map; lia.
  - apply py_last_last; exact Hl.
Qed.

(** ** C10: fixed configuration *)

(** C10. [run_backtest] takes no capital or commission from its caller:
    every successful run reports the configuration "MLStrategy", capital
    1,000,000, commission 0.002, trade on close, "Long-only", and its
    initial capital is 1,000,000. *)
Theorem fixed_configuration :
  forall d m, run_backtest d = Ok m ->
  BacktestMetrics.config m
  = StrategyConfig.mk "MLStrategy" 1000000 (2 # 1000) true "Long-only"
  /\ BacktestMetrics.initial_capital m = 1000000
  /\ StrategyConfig.initial_capital (BacktestMetrics.config m) = 1000000
  /\ StrategyConfig.commission (BacktestMetrics.config m) = 2 # 1000.
Proof.
  intros d m Hrun.
  destruct (run_fields d m Hrun) as (Hc & Hcap & _).
  rewrite Hc; auto.
Qed.

(** ** C7: drawdown *)

(** C7 (as the code computes it). For a successful run the drawdown
    curve is in percent: [Drawdown[t] = (Equity[t]/Peak[t] - 1) * 100]
    with [Peak[t] = max(Equity[0..t])]; [Drawdown[t] <= 0]; it is [0]
    where [Equity[t]] is a running maximum; and [max_drawdown] is the
    minimum of the curve. *)
Theorem drawdown_percent :
  forall d m, run_backtest d = Ok m ->
  let eq := BacktestMetrics.equity_curve m in
  let dd := BacktestMetrics.drawdown_curve m in
  length dd = length eq
  /\ (forall t, (t < length eq)%nat ->
        (exists peak,
            (forall i, (i <= t)%nat -> nth i eq 0 <= peak)
            /\ (exists i, (i <= t)%nat /\ peak == nth i eq 0)
            /\ nth t dd 0 == (nth t eq 0 / peak - 1) * 100)
        /\ nth t dd 0 <= 0
        /\ ((forall i, (i <= t)%nat -> nth i eq 0 <= nth t eq 0) ->
            nth t dd 0 == 0))
  /\ (forall t, (t < length dd)%nat -> BacktestMetrics.max_drawdown m <= nth t dd 0)
  /\ (exists t, (t < length dd)%nat /\ BacktestMetrics.max_drawdown m == nth t dd 0).
Proof.
  intros d m Hrun eq dd; unfold eq, dd; clear eq dd.
  destruct (run_fields d m Hrun) as (_ & _ & Hr & He & _ & _ & Hdd & Hmax & _).
  destruct (run_length_equity d m Hrun) as [Le Lr].
  pose proof (run_nonempty d m Hrun) as Hne.
  pose proof (run_returns_0 d m Hrun) as H0.
  remember (BacktestMetrics.equity_curve m) as eq eqn:Heqc in *.
  remember (BacktestMetrics.drawdown_curve m) as dd eqn:Hddc in *.
  assert (Hn : (0 < length eq)%nat)
    by (rewrite Le; destruct (StockData.closes d);
        [congruence|simpl; lia]).
  assert (Ldd : length dd = length eq)
    by (rewrite Hdd, length_zipw, length_cummax; lia).
  assert (Hdd_t : forall t, (t < length eq)%nat ->
            nth t dd 0 == (nth t eq 0 / nth t (cummax eq) 0 - 1) * 100).
  { intros t Ht; rewrite Hdd.
    rewrite (nth_zipw _ _ _ _ 0 0); [reflexivity|exact Ht|].
    rewrite length_cummax; exact Ht. }
  assert (Heq0 : nth 0 eq 0 == 1000000).
  { rewrite He at 1; rewrite nth_scaled_cumprod
      by (rewrite length_map; lia).
    destruct (BacktestMetrics.returns m) as [|r rs] eqn:Er.
    - simpl in Lr; lia.
    - simpl in H0 |- *; rewrite H0; ring. }
  assert (Hpeak : forall t, (t < length eq)%nat -> 0 < nth t (cummax eq) 0).
  { intros t Ht; destruct (cummax_spec eq t Ht) as [Hub _].
    eapply Qlt_le_trans; [|apply (Hub 0%nat); lia].
    rewrite Heq0; reflexivity. }
  split; [exact Ldd|split; [|split]].
  - intros t Ht.
    destruct (cummax_spec eq t Ht) as [Hub Hat].
    pose proof (Hpeak t Ht) as Hp.
    split; [exists (nth t (cummax eq) 0); split; [exact Hub|split;
              [exact Hat|apply Hdd_t, Ht]]|].
    split.
    + rewrite Hdd_t by exact Ht.
      assert (Hq : nth t eq 0 / nth t (cummax eq) 0 <= 1).
      { apply Qle_shift_div_r; [exact Hp|].
        rewrite Qmult_1_l; apply Hub; lia. }
      lra.
    + intros Hrm.
      destruct Hat as (i & Hi & Hpi).
      assert (Hpe : nth t (cummax eq) 0 == nth t eq 0).
      { apply Qle_antisym; [rewrite Hpi; apply Hrm, Hi|apply Hub; lia]. }
      rewrite Hdd_t by exact Ht.
      rewrite Hpe; field.
      intros Z; rewrite <- Hpe in Z; rewrite Z in Hp; discriminate.
  - intros t Ht; rewrite Hmax.
    apply smin_spec; [|exact Ht].
    intros E; rewrite E in Ldd; simpl in Ldd; lia.
  - rewrite Hmax; apply smin_spec.
    intros E; rewrite E in Ldd; simpl in Ldd; lia.
Qed.

(** ** The ledger scan against the spec's description *)

Lemma last_nth {A} (l : list A) d : last l d = nth (length l - 1) l d.
Proof.
  induction l as [|x l IH]; auto.
  destruct l as [|y l]; auto.
  change (last (x :: y :: l) d) with (last (y :: l) d); rewrite IH.
  cbn [length].
  replace (S (S (length l)) - 1)%nat with (S (length l)) by lia.
  replace (S (length l) - 1)%nat with (length l) by lia.
  reflexivity.
Qed.

Lemma non_overlapping_weaken lo lo' ps :
  (lo <= lo')%nat -> non_overlapping lo' ps -> non_overlapping lo ps.
Proof.
  destruct ps as [|[e x] ps]; simpl; auto.
  intros H [H1 H2]; split; [lia|exact H2].
Qed.

Lemma spec_scan_non_overlapping (target : list Z) (n r : nat) :
  forall k, (k + r = n)%nat ->
  non_overlapping k (spec_flat target (n - 1) (seq k r))
  /\ (forall e, (e < k)%nat ->
      non_overlapping e (spec_open target (n - 1) e (seq k r))).
Proof.
  induction r as [|r IH]; intros k Hk; simpl.
  - split; auto; intros e He; simpl; split; [lia|auto].
  - destruct (IH (S k) ltac:(lia)) as [IHf IHo]; split.
    + destruct (nth k target 0 =? 1)%Z.
      * apply IHo; lia.
      * apply (non_overlapping_weaken _ (S k)); [lia|exact IHf].
    + intros e He; destruct (nth k target 0 =? 0)%Z.
      * simpl; split; [lia|exact IHf].
      * apply IHo; lia.
Qed.

Section LedgerScan.
Variables (commission : Q) (dates : list string) (close : list Q)
          (target : list Z).
Hypothesis Hdates : length dates = length close.

Let n := length close.
Let step := Ledger.step commission dates close target.
Let fin := Ledger.close_open commission dates close.
Let trade := spec_trade commission dates close.

Lemma ledger_scan r :
  forall k st, (k + r = n)%nat ->
  (Ledger.position_open st = false ->
   Ledger.trades (fin (fold_left step (seq k r) st))
   = Ledger.trades st ++ map trade (spec_flat target (n - 1) (seq k r)))
  /\ (Ledger.position_open st = true ->
      (Ledger.entry_idx st < k)%nat ->
      Ledger.entry_price st = nth (Ledger.entry_idx st) close 0 ->
      Ledger.trades (fin (fold_left step (seq k r) st))
      = Ledger.trades st
        ++ map trade (spec_open target (n - 1) (Ledger.entry_idx st)
                        (seq k r))).
Proof.
  induction r as [|r IH]; intros k [po e p tr bs ss] Hk; simpl.
  - split; intros Ho; simpl in Ho; subst po.
    + unfold fin, Ledger.close_open; simpl; rewrite app_nil_r; reflexivity.
    + intros He Hp; simpl in He, Hp.
      unfold fin, Ledger.close_open; simpl; do 2 f_equal.
      unfold trade, spec_trade.
      rewrite (last_nth close), (last_nth dates), Hdates, Hp.
      fold n; f_equal; lia.
  - split; intros Ho; simpl in Ho; subst po.
    + unfold step at 2, Ledger.step; simpl.
      destruct (nth k target 0 =? 1)%Z eqn:E1; simpl.
        destruct (IH (S k) (Ledger.mk true k (nth k close 0) tr
                              (bs ++ [k]) ss) ltac:(lia)) as [_ IHo].
        apply IHo; simpl; auto.
      * destruct (nth k target 0 =? 0)%Z; simpl;
          destruct (IH (S k) (Ledger.mk false e p tr bs ss) ltac:(lia))
            as [IHf _]; apply IHf; reflexivity.
    + intros He Hp; simpl in He, Hp; subst p.
      unfold step at 2, Ledger.step; simpl.
      rewrite andb_false_r; simpl.
      destruct (nth k target 0 =? 0)%Z eqn:E0; simpl.
      * destruct (IH (S k) (Ledger.mk false e (nth e close 0)
                  (tr ++ [TradeRecord.mk (nth e dates "") (nth k dates "")
                    (nth e close 0) (nth k close 0)
                    (nth k close 0 - nth e close 0
                     - nth e close 0 * commission * 2)
                    ((nth k close 0 - nth e close 0
                      - nth e close 0 * commission * 2)
                     / nth e close 0 * 100)
                    (Z.of_nat k - Z.of_nat e) "LONG"]) bs (ss ++ [k]))
                  ltac:(lia)) as [IHf _].
        rewrite IHf by reflexivity; simpl.
        rewrite <- app_assoc; reflexivity.
      * destruct (IH (S k) (Ledger.mk true e (nth e close 0) tr bs ss)
                    ltac:(lia)) as [_ IHo].
        apply IHo; simpl; auto; lia.
Qed.

End LedgerScan.

(** ** C3: the trade ledger *)

(** C3. For a successful run the trade ledger is exactly what a single
    left-to-right scan over [Target] yields: while flat, a period with
    [Target == 1] opens a trade at that period's close (entries while
    open are ignored); while open, the next period with [Target == 0]
    closes it with [PL = (Exit - Entry) - Entry*commission*2],
    [PL% = PL/Entry*100] and [Duration = exitIndex - entryIndex]; a
    trade still open at the end is closed at the last period's price
    and index.  Trades do not overlap and all are "LONG". *)
Theorem trade_ledger_scan :
  forall d m, run_backtest d = Ok m ->
  let n := length (StockData.closes d) in
  let target := Frame.Target (signals (2 # 1000) (StockData.closes d)
                                (StockData.macd d) (StockData.macd_signal d)) in
  BacktestMetrics.trades m
  = spec_ledger (2 # 1000) (StockData.dates d) (StockData.closes d) target
  /\ non_overlapping 0 (spec_flat target (n - 1) (seq 0 n))
  /\ Forall (fun tr => TradeRecord.trade_type tr = "LONG")
       (BacktestMetrics.trades m).
Proof.
  intros d m Hrun n target.
  destruct (run_lengths d m Hrun) as (_ & _ & Hdates).
  destruct (run_fields d m Hrun) as (_ & _ & _ & _ & _ & _ & _ & _ & Htr & _).
  assert (Hl : BacktestMetrics.trades m
               = spec_ledger (2 # 1000) (StockData.dates d)
                   (StockData.closes d) target).
  { rewrite Htr; unfold Ledger.run.
    destruct (ledger_scan (2 # 1000) (StockData.dates d) (StockData.closes d)
                target Hdates (length (StockData.closes d)) 0 Ledger.init
                ltac:(lia)) as [Hf _].
    specialize (Hf eq_refl); exact Hf. }
  split; [exact Hl|split].
  - destruct (spec_scan_non_overlapping target n n 0 ltac:(lia)) as [H _].
    exact H.
  - rewrite Hl; unfold spec_ledger.
    apply Forall_map, Forall_forall; intros [e x] _; reflexivity.
Qed.

(** ** C9: an always-long position *)

Lemma prod_firstn_eq (A B : list Q) k :
  length A = length B -> (forall i, nth i A 0 == nth i B 0) ->
  prod (firstn k A) == prod (firstn k B).
Proof.
  revert B k; induction A as [|a A IH]; intros [|b B] [|k] HL Hi;
    simpl in *; try lia; try reflexivity.
  rewrite (Hi 0%nat), (IH B k) by (auto; intros i; apply (Hi (S i))).
  reflexivity.
Qed.

(** Two lists that differ at index [j] only: their prefix products
    covering [j] differ by the ratio of the two entries. *)
Lemma prod_firstn_swap (A B : list Q) j k :
  length A = length B -> (j < k)%nat ->
  (forall i, i <> j -> nth i A 0 == nth i B 0) ->
  prod (firstn k A) * nth j B 0 == prod (firstn k B) * nth j A 0.
Proof.
  revert B j k; induction A as [|a A IH]; intros [|b B] j [|k] HL Hj Hi;
    simpl in *; try lia; try (destruct j; ring).
  destruct j as [|j].
  - rewrite (prod_firstn_eq A B k) by (auto; intros i; apply (Hi (S i)); lia).
    ring.
  - rewrite (Hi 0%nat) by lia.
    rewrite <- !Qmult_assoc, (IH B j k) by (auto; try lia;
      intros i Hne; apply (Hi (S i)); lia).
    reflexivity.
Qed.

(** C9 (as the code computes it).  [Position[0]] is always [0], so the
    strongest always-long run has [Position[t] = 1] for every [t >= 1].
    Then the reported net return equals the period return (first value
    filled with [0]) at every period except [t = 1], where the single
    entry commission is subtracted; and strategy equity tracks the
    buy-and-hold equity up to that one cost:
    [Equity[t] * (1 + R[1]) = Market[t] * (1 + R[1] - commission)]. *)
Theorem long_after_first_period :
  forall d m, run_backtest d = Ok m ->
  let f := signals (2 # 1000) (StockData.closes d) (StockData.macd d)
             (StockData.macd_signal d) in
  let n := length (StockData.closes d) in
  let R := fillna0 (Frame.Returns f) in
  (forall t, (1 <= t < n)%nat -> nth t (fillna0 (Frame.Position f)) 0 == 1) ->
  (forall t, (t < n)%nat ->
     nth t (BacktestMetrics.returns m) 0
     == if (t =? 1)%nat then nth t R 0 - (2 # 1000) else nth t R 0)
  /\ (forall t, (1 <= t < n)%nat ->
        nth t (BacktestMetrics.equity_curve m) 0 * (1 + nth 1 R 0)
        == nth t (BacktestMetrics.market_equity m) 0
           * (1 + nth 1 R 0 - (2 # 1000))).
Proof.
  intros d m Hrun f n R Hlong.
  destruct (run_lengths d m Hrun) as (Hm & Hs & _).
  destruct (run_fields d m Hrun) as (_ & _ & Hr & He & _ & Hme & _).
  destruct (run_length_equity d m Hrun) as [Le Lr].
  pose proof (run_nonempty d m Hrun) as Hne.
  assert (Hpos : forall t, (1 <= t < n)%nat ->
            match t with O => 0
            | S j => inject_Z (nth j (Frame.Target f) 0%Z) end == 1).
  { intros t Ht; rewrite <- (Hlong t Ht), nth_fillna0.
    unfold f; rewrite nth_Position by (auto; unfold n in Ht; lia).
    reflexivity. }
  assert (LR : length R = n)
    by (unfold R, f; rewrite length_fillna0; apply length_Returns).
  assert (Hret : forall t, (t < n)%nat ->
            nth t (BacktestMetrics.returns m) 0
            == if (t =? 1)%nat then nth t R 0 - (2 # 1000) else nth t R 0).
  { intros [|t] Ht.
    - rewrite (run_returns_0 d m Hrun); unfold R; rewrite nth_fillna0.
      change (Frame.Returns f) with (pct_change (StockData.closes d)).
      simpl Nat.eqb; rewrite nth_pct_change_0 by exact Hne.
      reflexivity.
    - rewrite Hr, nth_fillna0; unfold R; rewrite nth_fillna0; fold f.
      unfold f at 1; rewrite nth_Strategy_Returns_S by auto.
      change (Frame.Returns f) with (pct_change (StockData.closes d)).
      rewrite nth_pct_change_S by exact Ht.
      fold f; rewrite (Hpos (S t)) by lia.
      destruct t as [|t]; simpl Nat.eqb.
      + change (Qabs (1 - 0)) with 1; cbv iota; ring.
      + rewrite (Hpos (S t)) by lia.
        change (Qabs (1 - 1)) with 0; cbv iota; ring. }
  split; [exact Hret|].
  intros t Ht.
  set (A := map (Qplus 1) (BacktestMetrics.returns m)).
  set (B := map (Qplus 1) R).
  assert (LA : length A = n) by (unfold A; rewrite length_map; auto).
  assert (LB : length B = n) by (unfold B; rewrite length_map; auto).
  assert (HA : forall i, (i < n)%nat -> nth i A 0 == 1 + nth i (BacktestMetrics.returns m) 0)
    by (intros i Hi; unfold A; rewrite (nth_map_opt _ _ _ 0) by lia;
        reflexivity).
  assert (HB : forall i, (i < n)%nat -> nth i B 0 == 1 + nth i R 0)
    by (intros i Hi; unfold B; rewrite (nth_map_opt _ _ _ 0) by lia;
        reflexivity).
  assert (Eeq : nth t (BacktestMetrics.equity_curve m) 0
                == 1000000 * prod (firstn (S t) A))
    by (rewrite He; apply nth_scaled_cumprod; lia).
  assert (Emk : nth t (BacktestMetrics.market_equity m) 0
                == 1000000 * prod (firstn (S t) B))
    by (rewrite Hme; apply nth_scaled_cumprod; lia).
  assert (H1A : nth 1 A 0 == 1 + nth 1 R 0 - (2 # 1000))
    by (rewrite (HA 1%nat), (Hret 1%nat) by lia; simpl Nat.eqb; cbv iota;
        ring).
  assert (H1B : nth 1 B 0 == 1 + nth 1 R 0) by (apply HB; lia).
  rewrite Eeq, Emk, <- H1A, <- H1B.
  rewrite <- !Qmult_assoc.
  rewrite (prod_firstn_swap A B 1 (S t)); [reflexivity|lia|lia|].
  intros i Hi.
  destruct (Nat.ltb_spec i n) as [Hin|Hin].
  - rewrite (HA i Hin), (HB i Hin), (Hret i Hin).
    destruct (Nat.eqb_spec i 1); [lia|reflexivity].
  - rewrite !nth_overflow by lia; reflexivity.
Qed.

(** ** C5: win rate *)

(** C5. On a two-period run that is long in the second period, the
    engine's win rate is 50: pandas' [NaN != 0] is true, so the
    undefined first-period return enters the denominator.  With that
    value treated as zero, as the spec requires, the rate is 100. *)
Theorem win_rate_counts_first_period :
  exists m, run_backtest win_rate_input = Ok m
  /\ BacktestMetrics.win_rate m == 50
  /\ spec_win_rate (BacktestMetrics.returns m) == 100.
Proof.
  exists (metrics_of win_rate_input); split; [vm_compute; reflexivity|].
  vm_compute; split; reflexivity.
Qed.

(** ** C6: malformed inputs *)


(** C7, refuted as stated: long through a halving of the price the
    drawdown is -50.2 (percent), not the fraction -0.502. *)
Lemma drawdown_not_a_fraction :
  exists m, run_backtest drawdown_input = Ok m
  /\ nth 1 (BacktestMetrics.drawdown_curve m) 0 == -251 # 5
  /\ ~ (nth 1 (BacktestMetrics.drawdown_curve m) 0
        == nth 1 (BacktestMetrics.equity_curve m) 0
           / nth 0 (BacktestMetrics.equity_curve m) 0 - 1).
Proof.
  exists (metrics_of drawdown_input); split; [vm_compute; reflexivity|].
  vm_compute; split; [reflexivity|discriminate].
Qed.

(** ** C8: the spec's scenario *)

(** C8, refuted as stated: in the scenario the return at index 3 is
    zero (close 110 -> 110), and the position changes, hence the
    commission, fall at indices 1 and 4, not 0 and 3. *)
Lemma scenario_commission_indices :
  let f := signals (2 # 1000) (StockData.closes scenario)
             (StockData.macd scenario) (StockData.macd_signal scenario) in
  nth 3 (BacktestMetrics.returns (metrics_of scenario)) 0 == 0
  /\ map (option_map Qred) (Frame.Position_Change f)
     = [None; Some 1; Some 0; Some 0; Some 1].
Proof. vm_compute; split; reflexivity. Qed.

(** C8 (as the code computes it). In the scenario [Target = 1,1,1,0,0],
    [Position = 0,1,1,1,0]; one trade opens at index 0 at 100 and closes
    at index 3 at 110 with PL 9.6; the net returns are
    [0, -0.002, 0.1, 0, -0.002]: nonzero at indices 1, 2 and 4, with the
    commission charged at indices 1 and 4; final equity is
    1,000,000 * 0.998 * 1.1 * 0.998 = 1,095,604.4. *)
Theorem scenario_run :
  let f := signals (2 # 1000) (StockData.closes scenario)
             (StockData.macd scenario) (StockData.macd_signal scenario) in
  Frame.Target f = [1; 1; 1; 0; 0]%Z
  /\ map Qred (fillna0 (Frame.Position f)) = [0; 1; 1; 1; 0]
  /\ map Qred (fillna0 (Frame.Position_Change f)) = [0; 1; 0; 0; 1]
  /\ exists m, run_backtest scenario = Ok m
     /\ BacktestMetrics.buy_signals m = [0%nat]
     /\ BacktestMetrics.sell_signals m = [3%nat]
     /\ map (fun tr => (TradeRecord.entry_date tr, TradeRecord.exit_date tr,
                        Qred (TradeRecord.entry_price tr),
                        Qred (TradeRecord.exit_price tr),
                        Qred (TradeRecord.profit_loss tr),
                        TradeRecord.duration_days tr,
                        TradeRecord.trade_type tr))
           (BacktestMetrics.trades m)
        = [("2024-01-01", "2024-01-04", 100, 110, 48 # 5, 3%Z, "LONG")]
     /\ map Qred (BacktestMetrics.returns m)
        = [0; -1 # 500; 1 # 10; 0; -1 # 500]
     /\ BacktestMetrics.final_equity m == 5478022 # 5.
Proof.
  vm_compute; split; [reflexivity|split; [reflexivity|split; [reflexivity|]]].
  exists (metrics_of scenario); split; [vm_compute; reflexivity|].
  vm_compute; repeat split; reflexivity.
Qed.

(** C9, refuted as stated: [Position[0]] is [0] even when
    [MACD > Signal] throughout, and the entry commission falls at
    [t = 1]; at [t = 0] the net return equals the period return. *)
Lemma always_long_signal_commission_at_1 :
  let f := signals (2 # 1000) (StockData.closes always_long_input)
             (StockData.macd always_long_input)
             (StockData.macd_signal always_long_input) in
  let m := metrics_of always_long_input in
  nth 0 (fillna0 (Frame.Position f)) 0 == 0
  /\ nth 0 (BacktestMetrics.returns m) 0 == nth 0 (fillna0 (Frame.Returns f)) 0
  /\ nth 1 (BacktestMetrics.returns m) 0
     == nth 1 (fillna0 (Frame.Returns f)) 0 - (2 # 1000).
Proof. vm_compute; repeat split; reflexivity. Qed.

(** ** Witnesses: each theorem applied at a concrete input *)

Lemma translator_formulas_witness :
  length (StockData.macd scenario) = length (StockData.closes scenario)
  /\ length (StockData.macd_signal scenario) = length (StockData.closes scenario)
  /\ nth 3 (Frame.Position (signals (2 # 1000) (StockData.closes scenario)
              (StockData.macd scenario) (StockData.macd_signal scenario))) None
     = Some (inject_Z (nth 2 (Frame.Target (signals (2 # 1000)
              (StockData.closes scenario) (StockData.macd scenario)
              (StockData.macd_signal scenario))) 0%Z)).
Proof.
  split; [reflexivity|split; [reflexivity|]].
  destruct (translator_formulas (2 # 1000) (StockData.closes scenario)
              (StockData.macd scenario) (StockData.macd_signal scenario)
              eq_refl eq_refl) as (_ & _ & _ & _ & _ & HP & _).
  apply (HP 3%nat); simpl; lia.
Defined.

Lemma no_lookahead_witness :
  nth 2 (Frame.Strategy_Returns (signals (2 # 1000) (StockData.closes scenario)
           (StockData.macd scenario) (StockData.macd_signal scenario))) None
  = nth 2 (Frame.Strategy_Returns (signals (2 # 1000) (StockData.closes scenario)
           [1; 1; -5; -1; -1] (StockData.macd_signal scenario))) None.
Proof.
  destruct (no_lookahead (2 # 1000) (StockData.closes scenario)
              (StockData.macd scenario) [1; 1; -5; -1; -1]
              (StockData.macd_signal scenario) (StockData.macd_signal scenario)
              2%nat eq_refl eq_refl eq_refl eq_refl) as (_ & H & _).
  - intros [|[|[|i]]] Hi; [reflexivity|reflexivity|lia|reflexivity].
  - intros i _; reflexivity.
  - exact H.
Defined.

Lemma equity_consistency_witness :
  run_backtest scenario = Ok (metrics_of scenario)
  /\ BacktestMetrics.final_equity (metrics_of scenario)
     = last (BacktestMetrics.equity_curve (metrics_of scenario)) 0.
Proof.
  assert (H : run_backtest scenario = Ok (metrics_of scenario))
    by (vm_compute; reflexivity).
  split; [exact H|].
  destruct (equity_consistency scenario (metrics_of scenario) H)
    as (_ & _ & _ & _ & Hf).
  exact Hf.
Defined.

Lemma trade_ledger_scan_witness :
  run_backtest scenario = Ok (metrics_of scenario)
  /\ Forall (fun tr => TradeRecord.trade_type tr = "LONG")
       (BacktestMetrics.trades (metrics_of scenario)).
Proof.
  assert (H : run_backtest scenario = Ok (metrics_of scenario))
    by (vm_compute; reflexivity).
  split; [exact H|].
  destruct (trade_ledger_scan scenario (metrics_of scenario) H)
    as (_ & _ & Hl).
  exact Hl.
Defined.

Lemma drawdown_percent_witness :
  run_backtest drawdown_input = Ok (metrics_of drawdown_input)
  /\ BacktestMetrics.max_drawdown (metrics_of drawdown_input)
     <= nth 1 (BacktestMetrics.drawdown_curve (metrics_of drawdown_input)) 0.
Proof.
  assert (H : run_backtest drawdown_input = Ok (metrics_of drawdown_input))
    by (vm_compute; reflexivity).
  split; [exact H|].
  destruct (drawdown_percent drawdown_input (metrics_of drawdown_input) H)
    as (_ & _ & Hmin & _).
  apply Hmin; vm_compute; lia.
Defined.

Lemma long_after_first_period_witness :
  run_backtest always_long_input = Ok (metrics_of always_long_input)
  /\ nth 1 (BacktestMetrics.returns (metrics_of always_long_input)) 0
     == nth 1 (fillna0 (Frame.Returns (signals (2 # 1000)
          (StockData.closes always_long_input)
          (StockData.macd always_long_input)
          (StockData.macd_signal always_long_input)))) 0 - (2 # 1000).
Proof.
  assert (H : run_backtest always_long_input
              = Ok (metrics_of always_long_input))
    by (vm_compute; reflexivity).
  split; [exact H|].
  destruct (long_after_first_period always_long_input
              (metrics_of always_long_input) H) as [Hr _].
  - intros [|[|[|t]]] Ht; simpl in Ht; try lia; vm_compute; reflexivity.
  - apply (Hr 1%nat); simpl; lia.
Defined.

Lemma fixed_configuration_witness :
  run_backtest scenario = Ok (metrics_of scenario)
  /\ BacktestMetrics.initial_capital (metrics_of scenario) = 1000000.
Proof.
  assert (H : run_backtest scenario = Ok (metrics_of scenario))
    by (vm_compute; reflexivity).
  split; [exact H|].
  destruct (fixed_configuration scenario (metrics_of scenario) H)
    as (_ & Hc & _).
  exact Hc.
Defined.

(** * Further properties of the engine and of its report *)

(** ** The rest of the report *)

Section RunMore.
Variables (d : StockData.t) (m : BacktestMetrics.t).
Hypothesis Hrun : run_backtest d = Ok m.

Let f := signals (2 # 1000) (StockData.closes d) (StockData.macd d)
           (StockData.macd_signal d).
Let L := Ledger.run (2 # 1000) (StockData.dates d) (StockData.closes d)
           (Frame.Target f).

Lemma run_fields_more :
  BacktestMetrics.total_return m
  = (BacktestMetrics.final_equity m / 1000000 - 1) * 100
  /\ BacktestMetrics.market_total_return m
     = (last (BacktestMetrics.market_equity m) 0 / 1000000 - 1) * 100
  /\ BacktestMetrics.market_max_drawdown m
     = smin (zipw (fun e p => (e / p - 1) * 100)
               (BacktestMetrics.market_equity m)
               (cummax (BacktestMetrics.market_equity m)))
  /\ BacktestMetrics.total_trades m = length (BacktestMetrics.trades m)
  /\ BacktestMetrics.buy_signals m = Ledger.buy_signals L
  /\ BacktestMetrics.sell_signals m = Ledger.sell_signals L
  /\ BacktestMetrics.dates m = StockData.dates d
  /\ BacktestMetrics.volumes m = StockData.volumes d
  /\ BacktestMetrics.prices m = StockData.closes d
  /\ BacktestMetrics.data_points m = length (StockData.closes d).
Proof.
  pose proof Hrun as H; unfold run_backtest in H.
  destruct (aligned d); [|discriminate]; cbv zeta in H; simpl negb in H.
  cbv iota in H; run_cases H.
  injection H as <-; simpl.
  repeat split; auto.
Qed.
End RunMore.

Lemma length_scaled_cumprod (k : Q) l :
  length (map (Qmult k) (cumprod (map (Qplus 1) l))) = length l.
Proof.
  unfold cumprod; rewrite length_map, length_cumprod_from, length_map;
    reflexivity.
Qed.

Lemma length_drawdown (l : list Q) :
  length (zipw (fun e p => (e / p - 1) * 100) l (cummax l)) = length l.
Proof. rewrite length_zipw, length_cummax; lia. Qed.

Lemma prod_firstn_length l : prod (firstn (length l) l) = prod l.
Proof. rewrite firstn_all; reflexivity. Qed.

(** X2: the total return compounds the reported net returns. *)
Theorem total_return_compounded :
  forall d m, run_backtest d = Ok m ->
  BacktestMetrics.total_return m
  == (BacktestMetrics.final_equity m / BacktestMetrics.initial_capital m - 1)
     * 100
  /\ BacktestMetrics.total_return m
     == (prod (map (Qplus 1) (BacktestMetrics.returns m)) - 1) * 100.
Proof.
  intros d m Hrun.
  destruct (run_fields d m Hrun) as (_ & Hcap & _ & He & Hl & _).
  destruct (run_fields_more d m Hrun) as (Htr & _).
  destruct (run_length_equity d m Hrun) as [Le Lr].
  pose proof (run_nonempty d m Hrun) as Hne.
  rewrite Htr, Hcap; split; [reflexivity|].
  rewrite (py_last_last _ _ 0 Hl), last_nth.
  set (n := length (StockData.closes d)) in *.
  assert (Hn : (0 < n)%nat)
    by (unfold n; destruct (StockData.closes d); [congruence|simpl; lia]).
  assert (Hf : nth (length (BacktestMetrics.equity_curve m) - 1)
                 (BacktestMetrics.equity_curve m) 0
               == 1000000 * prod (map (Qplus 1) (BacktestMetrics.returns m))).
  { rewrite Le, He; rewrite nth_scaled_cumprod by (rewrite length_map; lia).
    replace (S (n - 1))
      with (length (map (Qplus 1) (BacktestMetrics.returns m)))
      by (rewrite length_map; lia).
    rewrite prod_firstn_length; reflexivity. }
  rewrite Hf; field.
Qed.

Lemma count_le {A} (p q : A -> bool) l :
  (forall x, p x = true -> q x = true) -> (count p l <= count q l)%nat.
Proof.
  intros Hpq; unfold count; induction l as [|x l IH]; simpl; auto.
  destruct (p x) eqn:Ep; [rewrite (Hpq x Ep); simpl; lia|].
  destruct (q x); simpl; lia.
Qed.

Lemma count_zero {A} (p : A -> bool) l :
  count p l = 0%nat <-> (forall x, In x l -> p x = false).
Proof.
  unfold count; induction l as [|x l IH]; simpl.
  - split; auto; intros _ y [].
  - destruct (p x) eqn:Ep; simpl.
    + split; [discriminate|intros H; rewrite (H x (or_introl eq_refl)) in Ep;
                discriminate].
    + rewrite IH; split.
      * intros H y [<-|Hy]; auto.
      * intros H y Hy; auto.
Qed.

Lemma gt0_ne0 o : gt0 o = true -> ne0 o = true.
Proof.
  destruct o as [x|]; simpl; auto.
  destruct (Qle_bool x 0) eqn:E1; simpl; [discriminate|intros _].
  destruct (Qeq_bool x 0) eqn:E2; simpl; auto.
  apply Qeq_bool_iff in E2; rewrite E2 in E1; discriminate.
Qed.

Lemma win_rate_zero_iff d m :
  run_backtest d = Ok m ->
  BacktestMetrics.win_rate m == 0
  <-> forall t, (t < length (BacktestMetrics.returns m))%nat ->
      nth t (BacktestMetrics.returns m) 0 <= 0.
Proof.
  intros Hrun.
  destruct (run_fields d m Hrun) as (_ & _ & Hr & _ & _ & _ & _ & _ & _ & Hw).
  set (s := Frame.Strategy_Returns (signals (2 # 1000) (StockData.closes d)
              (StockData.macd d) (StockData.macd_signal d))) in *.
  set (w := count gt0 s) in *; set (a := count ne0 s) in *.
  assert (Hcells : count gt0 s = 0%nat
                   <-> forall t, (t < length (BacktestMetrics.returns m))%nat ->
                       nth t (BacktestMetrics.returns m) 0 <= 0).
  { rewrite count_zero, Hr, length_fillna0; split.
    - intros H t Ht; rewrite nth_fillna0.
      specialize (H (nth t s None) (nth_In _ _ Ht)).
      destruct (nth t s None) as [x|]; simpl in H; [|apply Qle_refl].
      destruct (Qle_bool x 0) eqn:E; [apply Qle_bool_iff; exact E|discriminate].
    - intros H o Ho; apply In_nth with (d := None) in Ho as (t & Ht & <-).
      specialize (H t Ht); rewrite nth_fillna0 in H.
      destruct (nth t s None) as [x|]; simpl; auto.
      apply Qle_bool_iff in H; rewrite H; reflexivity. }
  rewrite <- Hcells; fold w.
  rewrite Hw; cbv zeta; destruct (Nat.ltb_spec 0 a) as [Ha|Ha].
  - assert (Hqa : 0 < inject_Z (Z.of_nat a))
      by (unfold Qlt; simpl; lia).
    split.
    + intros H0.
      assert (Hz : inject_Z (Z.of_nat w) == 0).
      { assert (E : inject_Z (Z.of_nat w)
                    == inject_Z (Z.of_nat w) / inject_Z (Z.of_nat a) * 100
                       * inject_Z (Z.of_nat a) / 100)
          by (field; intros Z; rewrite Z in Hqa; discriminate).
        rewrite E, H0; reflexivity. }
      unfold Qeq in Hz; simpl in Hz; lia.
    + intros H0; rewrite H0; reflexivity.
  - assert (Hwa : (w <= a)%nat) by (apply count_le, gt0_ne0).
    split; [intros _; lia|reflexivity].
Qed.

(** X3: the win rate is a percentage, and it is zero exactly when no
    period has a positive net return. *)
Theorem win_rate_range :
  forall d m, run_backtest d = Ok m ->
  0 <= BacktestMetrics.win_rate m <= 100
  /\ (BacktestMetrics.win_rate m == 0
      <-> forall t, (t < length (BacktestMetrics.returns m))%nat ->
          nth t (BacktestMetrics.returns m) 0 <= 0).
Proof.
  intros d m Hrun.
  split; [|apply (win_rate_zero_iff d m Hrun)].
  destruct (run_fields d m Hrun) as (_ & _ & _ & _ & _ & _ & _ & _ & _ & Hw).
  set (s := Frame.Strategy_Returns (signals (2 # 1000) (StockData.closes d)
              (StockData.macd d) (StockData.macd_signal d))) in *.
  set (w := count gt0 s) in *; set (a := count ne0 s) in *.
  assert (Hwa : (w <= a)%nat) by (apply count_le, gt0_ne0).
  rewrite Hw; cbv zeta; destruct (Nat.ltb_spec 0 a) as [Ha|Ha].
  - assert (Hqa : 0 < inject_Z (Z.of_nat a))
      by (unfold Qlt; simpl; lia).
    assert (Hqw : 0 <= inject_Z (Z.of_nat w)) by (unfold Qle; simpl; lia).
    assert (Hqwa : inject_Z (Z.of_nat w) <= inject_Z (Z.of_nat a))
      by (rewrite <- Zle_Qle; lia).
    split.
    + apply Qmult_le_0_compat; [|discriminate].
      apply Qle_shift_div_l; [exact Hqa|]; rewrite Qmult_0_l; exact Hqw.
    + assert (inject_Z (Z.of_nat w) / inject_Z (Z.of_nat a) <= 1)
        by (apply Qle_shift_div_r; [exact Hqa|]; rewrite Qmult_1_l; exact Hqwa).
      lra.
  - split; discriminate.
Qed.

Lemma prod_firstn_S l t :
  (t < length l)%nat ->
  prod (firstn (S t) l) == prod (firstn t l) * nth t l 0.
Proof.
  revert t; induction l as [|x l IH]; intros [|t] H; simpl in *; try lia.
  - ring.
  - rewrite (IH t) by lia; simpl; ring.
Qed.

(** Compounding the period returns of [pct_change] telescopes to the
    price ratio. *)
Lemma prod_pct_change (c : list Q) t :
  (forall i, (i < length c)%nat -> ~ nth i c 0 == 0) ->
  (t < length c)%nat ->
  prod (firstn (S t) (map (Qplus 1) (fillna0 (pct_change c))))
  == nth t c 0 / nth 0 c 0.
Proof.
  intros Hnz; induction t as [|t IH]; intros Ht.
  - assert (Hne : c <> []) by (destruct c; simpl in Ht; [lia|discriminate]).
    destruct c as [|c0 c']; [congruence|].
    cbn [pct_change fillna0 map firstn prod fold_right nth].
    field; apply (Hnz 0%nat); simpl; lia.
  - rewrite prod_firstn_S
      by (rewrite length_map, length_fillna0, length_pct_change; lia).
    rewrite IH by lia.
    rewrite (nth_map_opt _ _ _ 0)
      by (rewrite length_fillna0, length_pct_change; lia).
    rewrite nth_fillna0, nth_pct_change_S by lia.
    field; split; [apply Hnz; lia|apply Hnz; lia].
Qed.

Lemma market_equity_prices d m :
  run_backtest d = Ok m ->
  let c := StockData.closes d in
  (forall t, (t < length c)%nat -> ~ nth t c 0 == 0) ->
  length (BacktestMetrics.market_equity m) = length c
  /\ forall t, (t < length c)%nat ->
     nth t (BacktestMetrics.market_equity m) 0
     == 1000000 * nth t c 0 / nth 0 c 0.
Proof.
  intros Hrun c Hnz.
  destruct (run_fields d m Hrun) as (_ & _ & _ & _ & _ & Hme & _).
  split.
  - rewrite Hme, length_scaled_cumprod, length_fillna0;
      apply length_pct_change.
  - intros t Ht; rewrite Hme.
    change (Frame.Returns _) with (pct_change c).
    rewrite nth_scaled_cumprod
      by (rewrite length_map, length_fillna0, length_pct_change; exact Ht).
    rewrite prod_pct_change by auto.
    field; apply Hnz; destruct c; [simpl in Ht; lia|simpl; lia].
Qed.

(** X4: the buy-and-hold benchmark holds the capital in the stock from
    the first close: [MarketEquity[t] = capital * Close[t] / Close[0]],
    and the market total return is the price change over the whole
    period, in percent. *)
Theorem market_buy_and_hold :
  forall d m, run_backtest d = Ok m ->
  let c := StockData.closes d in
  (forall t, (t < length c)%nat -> ~ nth t c 0 == 0) ->
  (forall t, (t < length c)%nat ->
     nth t (BacktestMetrics.market_equity m) 0
     == BacktestMetrics.initial_capital m * nth t c 0 / nth 0 c 0)
  /\ BacktestMetrics.market_total_return m
     == (last c 0 / nth 0 c 0 - 1) * 100.
Proof.
  intros d m Hrun c Hnz.
  destruct (run_fields d m Hrun) as (_ & Hcap & _).
  destruct (run_fields_more d m Hrun) as (_ & Hmtr & _).
  destruct (market_equity_prices d m Hrun Hnz) as [Lm Hmt]; fold c in Lm, Hmt.
  pose proof (run_nonempty d m Hrun) as Hne.
  assert (Hn : (0 < length c)%nat)
    by (unfold c; destruct (StockData.closes d); [congruence|simpl; lia]).
  split.
  - intros t Ht; rewrite Hcap; apply Hmt, Ht.
  - rewrite Hmtr, last_nth, Lm, (last_nth c), Hmt by lia.
    field; apply Hnz; lia.
Qed.

(** The maximum drawdown of a positive curve is its worst loss from an
    earlier value to a later one. *)
Lemma max_drawdown_pairs (l : list Q) :
  l <> [] -> (forall t, (t < length l)%nat -> 0 < nth t l 0) ->
  let mdd := smin (zipw (fun e p => (e / p - 1) * 100) l (cummax l)) in
  -100 < mdd <= 0
  /\ (forall i t, (i <= t < length l)%nat ->
        mdd <= (nth t l 0 / nth i l 0 - 1) * 100)
  /\ exists i t, (i <= t < length l)%nat
     /\ mdd == (nth t l 0 / nth i l 0 - 1) * 100.
Proof.
  intros Hne Hpos mdd.
  set (dd := zipw (fun e p => (e / p - 1) * 100) l (cummax l)) in *.
  assert (Ldd : length dd = length l) by apply length_drawdown.
  assert (Hdd : forall t, (t < length l)%nat ->
            nth t dd 0 = (nth t l 0 / nth t (cummax l) 0 - 1) * 100).
  { intros t Ht; unfold dd; rewrite (nth_zipw _ _ _ _ 0 0);
      [reflexivity|exact Ht|rewrite length_cummax; exact Ht]. }
  assert (Hdne : dd <> []) by (intros E; rewrite E in Ldd; destruct l;
                                 [congruence|discriminate]).
  destruct (smin_spec dd Hdne) as [Hlow (t0 & Ht0 & Hat)].
  fold mdd in Hlow, Hat; rewrite Ldd in Ht0.
  assert (Hpair : forall i t, (i <= t < length l)%nat ->
            nth t dd 0 <= (nth t l 0 / nth i l 0 - 1) * 100).
  { intros i t Hit; rewrite Hdd by lia.
    destruct (cummax_spec l t ltac:(lia)) as [Hub _].
    pose proof (Hub i ltac:(lia)) as Hi.
    assert (Hli : 0 < nth i l 0) by (apply Hpos; lia).
    assert (Hlt : 0 < nth t l 0) by (apply Hpos; lia).
    assert (Hq : nth t l 0 / nth t (cummax l) 0 <= nth t l 0 / nth i l 0).
    { apply Qle_shift_div_r; [eapply Qlt_le_trans; eauto|].
      assert (Hr : 0 < nth t l 0 / nth i l 0)
        by (apply Qlt_shift_div_l; [exact Hli|]; rewrite Qmult_0_l; exact Hlt).
      setoid_replace (nth t l 0) with (nth t l 0 / nth i l 0 * nth i l 0)
        at 1 by (field; intros Z; rewrite Z in Hli; discriminate).
      apply (proj2 (Qmult_le_l _ _ _ Hr)); exact Hi. }
    lra. }
  split; [split|split].
  - rewrite Hat, Hdd by exact Ht0.
    destruct (cummax_spec l t0 Ht0) as [Hub (j & Hj & Hpj)].
    assert (Hp : 0 < nth t0 (cummax l) 0)
      by (rewrite Hpj; apply Hpos; lia).
    assert (0 < nth t0 l 0 / nth t0 (cummax l) 0).
    { apply Qlt_shift_div_l; [exact Hp|]; rewrite Qmult_0_l; apply Hpos, Ht0. }
    lra.
  - assert (Hn : (0 < length l)%nat) by (destruct l; [congruence|simpl; lia]).
    eapply Qle_trans; [apply Hlow; rewrite Ldd; exact Hn|].
    eapply Qle_trans; [apply (Hpair 0%nat 0%nat); lia|].
    assert (Hl0 : 0 < nth 0 l 0) by (apply Hpos, Hn).
    setoid_replace (nth 0 l 0 / nth 0 l 0) with 1
      by (field; intros Z; rewrite Z in Hl0; discriminate).
    lra.
  - intros i t Hit; apply Qle_trans with (nth t dd 0);
      [apply Hlow; rewrite Ldd; lia|apply Hpair, Hit].
  - destruct (cummax_spec l t0 Ht0) as [_ (j & Hj & Hpj)].
    exists j, t0; split; [lia|].
    rewrite Hat, Hdd, Hpj by exact Ht0; reflexivity.
Qed.

(** X5: with positive closes the benchmark's maximum drawdown is the
    worst fall of the price from an earlier close to a later one, in
    percent; it lies in (-100, 0]. *)
Theorem market_max_drawdown_prices :
  forall d m, run_backtest d = Ok m ->
  let c := StockData.closes d in
  (forall t, (t < length c)%nat -> 0 < nth t c 0) ->
  -100 < BacktestMetrics.market_max_drawdown m <= 0
  /\ (forall i t, (i <= t < length c)%nat ->
        BacktestMetrics.market_max_drawdown m
        <= (nth t c 0 / nth i c 0 - 1) * 100)
  /\ exists i t, (i <= t < length c)%nat
     /\ BacktestMetrics.market_max_drawdown m
        == (nth t c 0 / nth i c 0 - 1) * 100.
Proof.
  intros d m Hrun c Hpos.
  assert (Hnz : forall t, (t < length c)%nat -> ~ nth t c 0 == 0)
    by (intros t Ht Z; specialize (Hpos t Ht); rewrite Z in Hpos;
        discriminate).
  destruct (run_fields_more d m Hrun) as (_ & _ & Hmdd & _).
  destruct (market_equity_prices d m Hrun Hnz) as [Lm Hmt]; fold c in Lm, Hmt.
  pose proof (run_nonempty d m Hrun) as Hne.
  assert (Hn : (0 < length c)%nat)
    by (unfold c; destruct (StockData.closes d); [congruence|simpl; lia]).
  assert (Hc0 : 0 < nth 0 c 0) by (apply Hpos, Hn).
  set (me := BacktestMetrics.market_equity m) in *.
  assert (Hmpos : forall t, (t < length me)%nat -> 0 < nth t me 0).
  { intros t Ht; rewrite Lm in Ht; rewrite Hmt by exact Ht.
    apply Qlt_shift_div_l; [exact Hc0|]; rewrite Qmult_0_l.
    apply Qmult_lt_0_compat; [reflexivity|apply Hpos, Ht]. }
  assert (Hratio : forall i t, (i < length c)%nat -> (t < length c)%nat ->
            nth t me 0 / nth i me 0 == nth t c 0 / nth i c 0).
  { intros i t Hi Ht; rewrite (Hmt t Ht), (Hmt i Hi).
    pose proof (Hnz i Hi); pose proof (Hnz 0%nat Hn).
    field; repeat split; auto. }
  assert (Hmne : me <> []) by (intros E; rewrite E in Lm; simpl in Lm; lia).
  destruct (max_drawdown_pairs me Hmne Hmpos) as (Hb & Hle & (i & t & Hit & Hat)).
  rewrite Hmdd; fold me; rewrite Lm in Hle, Hit.
  split; [exact Hb|split].
  - intros i' t' Hit'; rewrite <- Hratio by lia; apply Hle, Hit'.
  - exists i, t; split; [exact Hit|]; rewrite <- Hratio by lia; exact Hat.
Qed.

Lemma prod_firstn_pos l k :
  (forall i, (i < length l)%nat -> 0 < nth i l 0) ->
  0 < prod (firstn k l).
Proof.
  revert k; induction l as [|x l IH]; intros [|k] H; simpl; try reflexivity.
  apply Qmult_lt_0_compat; [apply (H 0%nat); simpl; lia|].
  apply IH; intros i Hi; apply (H (S i)); simpl; lia.
Qed.

(** X6: as long as no net return reaches -100%, the equity stays
    positive, the maximum drawdown lies in (-100, 0], and it is the
    worst fall of the equity from an earlier period to a later one. *)
Theorem strategy_max_drawdown_pairs :
  forall d m, run_backtest d = Ok m ->
  let r := BacktestMetrics.returns m in
  let eq := BacktestMetrics.equity_curve m in
  (forall t, (t < length r)%nat -> -1 < nth t r 0) ->
  (forall t, (t < length eq)%nat -> 0 < nth t eq 0)
  /\ -100 < BacktestMetrics.max_drawdown m <= 0
  /\ (forall i t, (i <= t < length eq)%nat ->
        BacktestMetrics.max_drawdown m <= (nth t eq 0 / nth i eq 0 - 1) * 100)
  /\ exists i t, (i <= t < length eq)%nat
     /\ BacktestMetrics.max_drawdown m == (nth t eq 0 / nth i eq 0 - 1) * 100.
Proof.
  intros d m Hrun r eq Hr.
  destruct (run_fields d m Hrun)
    as (_ & _ & _ & He & _ & _ & Hdd & Hmax & _).
  destruct (run_length_equity d m Hrun) as [Le Lr].
  pose proof (run_nonempty d m Hrun) as Hne.
  fold eq r in He, Hdd, Le, Lr.
  assert (Hpos : forall t, (t < length eq)%nat -> 0 < nth t eq 0).
  { intros t Ht; rewrite He at 1.
    rewrite nth_scaled_cumprod by (rewrite length_map; lia).
    apply Qmult_lt_0_compat; [reflexivity|].
    apply prod_firstn_pos; intros i Hi; rewrite length_map in Hi.
    rewrite (nth_map_opt _ _ _ 0) by exact Hi.
    specialize (Hr i Hi); lra. }
  assert (Heqne : eq <> [])
    by (intros E; rewrite E in Le; destruct (StockData.closes d);
        [congruence|discriminate]).
  destruct (max_drawdown_pairs eq Heqne Hpos) as (Hb & Hle & Hex).
  rewrite Hmax, Hdd.
  split; [exact Hpos|split; [exact Hb|split; [exact Hle|exact Hex]]].
Qed.

Lemma spec_open_head (target : list Z) (li e : nat) idxs :
  exists x rest, spec_open target li e idxs = (e, x) :: rest.
Proof.
  induction idxs as [|i idxs IH]; simpl.
  - eexists _, []; reflexivity.
  - destruct (nth i target 0 =? 0)%Z; [eexists _, _; reflexivity|exact IH].
Qed.

Section LedgerSignals.
Variables (commission : Q) (dates : list string) (close : list Q)
          (target : list Z).

Let n := length close.
Let step := Ledger.step commission dates close target.
Let fin := Ledger.close_open commission dates close.

Lemma ledger_scan_signals r :
  forall k st, (k + r = n)%nat ->
  (Ledger.position_open st = false ->
   let P := spec_flat target (n - 1) (seq k r) in
   Ledger.buy_signals (fin (fold_left step (seq k r) st))
   = Ledger.buy_signals st ++ map fst P
   /\ Ledger.sell_signals (fin (fold_left step (seq k r) st))
      = Ledger.sell_signals st ++ map snd P)
  /\ (Ledger.position_open st = true ->
      let P := spec_open target (n - 1) (Ledger.entry_idx st) (seq k r) in
      Ledger.buy_signals (fin (fold_left step (seq k r) st))
      = Ledger.buy_signals st ++ tl (map fst P)
      /\ Ledger.sell_signals (fin (fold_left step (seq k r) st))
         = Ledger.sell_signals st ++ map snd P).
Proof.
  induction r as [|r IH]; intros k [po e p tr bs ss] Hk; simpl.
  - split; intros Ho; simpl in Ho; subst po.
    + unfold fin, Ledger.close_open; simpl; rewrite !app_nil_r; auto.
    + unfold fin, Ledger.close_open; simpl; rewrite app_nil_r; split; auto.
  - split; intros Ho; simpl in Ho; subst po.
    + destruct (nth k target 0 =? 1)%Z eqn:E1.
      * assert (Es : step (Ledger.mk false e p tr bs ss) k
                     = Ledger.mk true k (nth k close 0) tr (bs ++ [k]) ss)
          by (unfold step, Ledger.step; simpl; rewrite E1; reflexivity).
        rewrite Es.
        destruct (IH (S k) (Ledger.mk true k (nth k close 0) tr
                              (bs ++ [k]) ss) ltac:(lia)) as [_ IHo].
        destruct (IHo eq_refl) as [Hb Hs]; simpl in Hb, Hs.
        rewrite Hb, Hs, <- app_assoc.
        destruct (spec_open_head target (n - 1) k (seq (S k) r))
          as (x & rest & Eo).
        rewrite Eo; simpl; split; reflexivity.
      * assert (Es : step (Ledger.mk false e p tr bs ss) k
                     = Ledger.mk false e p tr bs ss)
          by (unfold step, Ledger.step; simpl; rewrite E1; simpl;
              destruct (nth k target 0 =? 0)%Z; reflexivity).
        rewrite Es.
        destruct (IH (S k) (Ledger.mk false e p tr bs ss) ltac:(lia))
          as [IHf _]; apply IHf; reflexivity.
    + destruct (nth k target 0 =? 0)%Z eqn:E0.
      * set (st' := step (Ledger.mk true e p tr bs ss) k).
        assert (Eo : Ledger.position_open st' = false
                     /\ Ledger.buy_signals st' = bs
                     /\ Ledger.sell_signals st' = ss ++ [k])
          by (unfold st', step, Ledger.step; simpl; rewrite andb_false_r, E0;
              simpl; auto).
        destruct Eo as (Eo & Eb & Es).

        destruct (IH (S k) st' ltac:(lia)) as [IHf _].
        destruct (IHf Eo) as [Hb Hs].
        rewrite Hb, Hs, Eb, Es, <- app_assoc; simpl; split; reflexivity.
      * assert (Es : step (Ledger.mk true e p tr bs ss) k
                     = Ledger.mk true e p tr bs ss)
          by (unfold step, Ledger.step; simpl; rewrite andb_false_r, E0;
              reflexivity).
        rewrite Es.
        destruct (IH (S k) (Ledger.mk true e p tr bs ss) ltac:(lia))
          as [_ IHo].
        exact (IHo eq_refl).
Qed.
End LedgerSignals.

Lemma spec_scan_targets (target : list Z) (n r : nat) :
  forall k, (k + r = n)%nat ->
  Forall (scan_trade_ok target n) (spec_flat target (n - 1) (seq k r))
  /\ (forall e, (e < k)%nat -> (nth e target 0 = 1)%Z ->
      Forall (scan_trade_ok target n)
        (spec_open target (n - 1) e (seq k r))).
Proof.
  induction r as [|r IH]; intros k Hk; simpl.
  - split; [constructor|].
    intros e He Ht; constructor; [|constructor].
    unfold scan_trade_ok; simpl; split; [exact Ht|split; [lia|right; reflexivity]].
  - destruct (IH (S k) ltac:(lia)) as [IHf IHo]; split.
    + destruct (nth k target 0 =? 1)%Z eqn:E.
      * apply IHo; [lia|apply Z.eqb_eq, E].
      * exact IHf.
    + intros e He Ht; destruct (nth k target 0 =? 0)%Z eqn:E.
      * constructor; [|exact IHf].
        unfold scan_trade_ok; simpl; split; [exact Ht|split; [lia|left]].
        apply Z.eqb_eq, E.
      * apply IHo; [lia|exact Ht].
Qed.

Lemma non_overlapping_nth lo ps :
  non_overlapping lo ps ->
  forall i, (i < length ps)%nat ->
  (lo <= fst (nth i ps (0, 0)) <= snd (nth i ps (0, 0)))%nat
  /\ ((S i < length ps)%nat ->
      (snd (nth i ps (0, 0)) < fst (nth (S i) ps (0, 0)))%nat).
Proof.
  revert lo; induction ps as [|[e x] ps IH]; intros lo H i Hi;
    simpl in *; [lia|].
  destruct H as [H1 H2]; destruct i as [|i].
  - split; [exact H1|intros Hs].
    destruct ps as [|[e' x'] ps]; simpl in *; [lia|].
    destruct H2 as [H2 _]; lia.
  - destruct (IH (S x) H2 i ltac:(lia)) as [IH1 IH2].
    split; [lia|intros Hs; apply IH2; lia].
Qed.

(** The ledger of a run and its signal lists are read off one list of
    [(entry, exit)] index pairs. *)
Lemma run_trade_pairs d m :
  run_backtest d = Ok m ->
  let c := StockData.closes d in
  let target := Frame.Target (signals (2 # 1000) c (StockData.macd d)
                                (StockData.macd_signal d)) in
  let P := spec_flat target (length c - 1) (seq 0 (length c)) in
  BacktestMetrics.trades m
  = map (spec_trade (2 # 1000) (StockData.dates d) c) P
  /\ BacktestMetrics.buy_signals m = map fst P
  /\ BacktestMetrics.sell_signals m = map snd P
  /\ BacktestMetrics.total_trades m = length P
  /\ non_overlapping 0 P
  /\ Forall (scan_trade_ok target (length c)) P.
Proof.
  intros Hrun c target P.
  destruct (run_lengths d m Hrun) as (_ & _ & Hdates).
  destruct (run_fields d m Hrun) as (_ & _ & _ & _ & _ & _ & _ & _ & Htr & _).
  destruct (run_fields_more d m Hrun) as (_ & _ & _ & Htt & Hb & Hs & _).
  assert (Ht : BacktestMetrics.trades m
               = map (spec_trade (2 # 1000) (StockData.dates d) c) P).
  { rewrite Htr; unfold Ledger.run.
    destruct (ledger_scan (2 # 1000) (StockData.dates d) (StockData.closes d)
                target Hdates (length (StockData.closes d)) 0 Ledger.init
                ltac:(lia)) as [Hf _].
    exact (Hf eq_refl). }
  destruct (ledger_scan_signals (2 # 1000) (StockData.dates d)
              (StockData.closes d) target (length (StockData.closes d)) 0
              Ledger.init ltac:(lia)) as [Hsig _].
  destruct (Hsig eq_refl) as [Hb' Hs'].
  split; [exact Ht|split; [|split; [|split; [|split]]]].
  - rewrite Hb; exact Hb'.
  - rewrite Hs; exact Hs'.
  - rewrite Htt, Ht, length_map; reflexivity.
  - destruct (spec_scan_non_overlapping target (length c) (length c) 0
                ltac:(lia)) as [H _]; exact H.
  - destruct (spec_scan_targets target (length c) (length c) 0
                ltac:(lia)) as [H _]; exact H.
Qed.

(** X7: the buy and sell signal lists pair up with the trades: there is
    one buy and one sell index per trade; each buy falls on a period
    with [MACD > Signal] and its sell at or after it, on a period with
    [MACD <= Signal] or on the last period; and the next buy comes
    strictly after the previous sell. *)
Theorem buy_sell_signals :
  forall d m, run_backtest d = Ok m ->
  let n := length (StockData.closes d) in
  let macd := StockData.macd d in
  let sig := StockData.macd_signal d in
  let b := BacktestMetrics.buy_signals m in
  let s := BacktestMetrics.sell_signals m in
  length b = BacktestMetrics.total_trades m
  /\ length s = BacktestMetrics.total_trades m
  /\ (forall i, (i < BacktestMetrics.total_trades m)%nat ->
        (nth i b 0 <= nth i s 0 < n)%nat
        /\ nth (nth i b 0%nat) sig 0 < nth (nth i b 0%nat) macd 0
        /\ (nth (nth i s 0%nat) macd 0 <= nth (nth i s 0%nat) sig 0
            \/ nth i s 0%nat = (n - 1)%nat))
  /\ (forall i, (S i < BacktestMetrics.total_trades m)%nat ->
        (nth i s 0 < nth (S i) b 0)%nat).
Proof.
  intros d m Hrun n macd sig b s.
  destruct (run_lengths d m Hrun) as (Hm & Hs & _).
  destruct (run_trade_pairs d m Hrun) as (_ & Hb & Hsl & Htt & Hno & Hok).
  set (target := Frame.Target (signals (2 # 1000) (StockData.closes d)
                   (StockData.macd d) (StockData.macd_signal d))) in *.
  set (P := spec_flat target (length (StockData.closes d) - 1)
              (seq 0 (length (StockData.closes d)))) in *.
  assert (Hbi : forall i, (i < length P)%nat -> nth i b 0%nat = fst (nth i P (0%nat, 0%nat)))
    by (intros i Hi; unfold b; rewrite Hb;
        rewrite (nth_map_opt _ _ _ (0%nat, 0%nat)) by exact Hi; reflexivity).
  assert (Hsi : forall i, (i < length P)%nat -> nth i s 0%nat = snd (nth i P (0%nat, 0%nat)))
    by (intros i Hi; unfold s; rewrite Hsl;
        rewrite (nth_map_opt _ _ _ (0%nat, 0%nat)) by exact Hi; reflexivity).
  assert (Htarget : forall j, (j < n)%nat ->
            nth j target 0%Z
            = if Qle_bool (nth j macd 0) (nth j sig 0) then 0%Z else 1%Z)
    by (intros j Hj; unfold target; apply nth_Target; auto).
  rewrite Htt.
  split; [unfold b; rewrite Hb, length_map; reflexivity|].
  split; [unfold s; rewrite Hsl, length_map; reflexivity|].
  split.
  - intros i Hi.
    destruct (non_overlapping_nth 0 P Hno i Hi) as [Hord _].
    pose proof (proj1 (Forall_forall _ P) Hok (nth i P (0%nat, 0%nat))
                  (nth_In _ _ Hi)) as (H1 & H2 & H3).
    rewrite (Hbi i Hi), (Hsi i Hi).
    fold n in H2, H3.
    assert (Hbn : (fst (nth i P (0%nat, 0%nat)) < n)%nat) by lia.
    split; [lia|split].
    + rewrite Htarget in H1 by exact Hbn.
      destruct (Qle_bool (nth (fst (nth i P (0%nat, 0%nat))) macd 0)
                  (nth (fst (nth i P (0%nat, 0%nat))) sig 0)) eqn:E; [discriminate|].
      apply Qnot_le_lt; intros Hle; apply Qle_bool_iff in Hle.
      rewrite Hle in E; discriminate.
    + destruct H3 as [H3|H3]; [left|right; exact H3].
      rewrite Htarget in H3 by exact H2.
      destruct (Qle_bool (nth (snd (nth i P (0%nat, 0%nat))) macd 0)
                  (nth (snd (nth i P (0%nat, 0%nat))) sig 0)) eqn:E; [|discriminate].
      apply Qle_bool_iff, E.
  - intros i Hi.
    destruct (non_overlapping_nth 0 P Hno i ltac:(lia)) as [_ Hnext].
    rewrite (Hsi i) by lia; rewrite (Hbi (S i)) by exact Hi.
    apply Hnext, Hi.
Qed.

(** X8: trade [i] of the ledger is priced, dated and timed at the
    periods of the [i]-th buy and sell signals, and its profit is the
    price change less 0.4% of the entry price:
    [PL = Exit - 1.004 * Entry]. *)
Theorem trades_match_signals :
  forall d m, run_backtest d = Ok m ->
  forall i tr, nth_error (BacktestMetrics.trades m) i = Some tr ->
  exists e x,
    nth_error (BacktestMetrics.buy_signals m) i = Some e
    /\ nth_error (BacktestMetrics.sell_signals m) i = Some x
    /\ TradeRecord.entry_price tr = nth e (StockData.closes d) 0
    /\ TradeRecord.exit_price tr = nth x (StockData.closes d) 0
    /\ TradeRecord.entry_date tr = nth e (StockData.dates d) ""
    /\ TradeRecord.exit_date tr = nth x (StockData.dates d) ""
    /\ TradeRecord.duration_days tr = (Z.of_nat x - Z.of_nat e)%Z
    /\ TradeRecord.profit_loss tr
       == TradeRecord.exit_price tr - (1004 # 1000) * TradeRecord.entry_price tr.
Proof.
  intros d m Hrun i tr Hi.
  destruct (run_trade_pairs d m Hrun) as (Ht & Hb & Hs & _).
  rewrite Ht, nth_error_map in Hi.
  destruct (nth_error _ i) as [[e x]|] eqn:HP; [|discriminate].
  injection Hi as <-.
  exists e, x.
  rewrite Hb, Hs, !nth_error_map, HP.
  simpl; repeat split; ring.
Qed.

Lemma run_return_S d m j :
  run_backtest d = Ok m ->
  let c := StockData.closes d in
  let target := Frame.Target (signals (2 # 1000) c (StockData.macd d)
                                (StockData.macd_signal d)) in
  (S j < length c)%nat ->
  nth (S j) (BacktestMetrics.returns m) 0
  = run_lag target (S j) * (nth (S j) c 0 / nth j c 0 - 1)
    - Qabs (run_lag target (S j) - run_lag target j) * (2 # 1000).
Proof.
  intros Hrun c target Hj.
  destruct (run_lengths d m Hrun) as (Hm & Hs & _).
  destruct (run_fields d m Hrun) as (_ & _ & Hr & _).
  rewrite Hr, nth_fillna0, nth_Strategy_Returns_S by auto.
  destruct j; reflexivity.
Qed.

Lemma run_equity_S d m j :
  run_backtest d = Ok m ->
  (S j < length (StockData.closes d))%nat ->
  nth (S j) (BacktestMetrics.equity_curve m) 0
  == nth j (BacktestMetrics.equity_curve m) 0
     * (1 + nth (S j) (BacktestMetrics.returns m) 0).
Proof.
  intros Hrun Hj.
  destruct (run_fields d m Hrun) as (_ & _ & _ & He & _).
  destruct (run_length_equity d m Hrun) as [Le Lr].
  rewrite He.
  rewrite !nth_scaled_cumprod by (rewrite length_map; lia).
  rewrite (prod_firstn_S _ (S j)) by (rewrite length_map; lia).
  rewrite (nth_map_opt _ _ _ 0) by lia.
  ring.
Qed.

Lemma target_at d (Hm : length (StockData.macd d) = length (StockData.closes d))
  (Hs : length (StockData.macd_signal d) = length (StockData.closes d)) j :
  (j < length (StockData.closes d))%nat ->
  (nth j (StockData.macd d) 0 <= nth j (StockData.macd_signal d) 0
   -> nth j (Frame.Target (signals (2 # 1000) (StockData.closes d)
        (StockData.macd d) (StockData.macd_signal d))) 0%Z = 0%Z)
  /\ (nth j (StockData.macd_signal d) 0 < nth j (StockData.macd d) 0
      -> nth j (Frame.Target (signals (2 # 1000) (StockData.closes d)
           (StockData.macd d) (StockData.macd_signal d))) 0%Z = 1%Z).
Proof.
  intros Hj; rewrite nth_Target by auto; split; intros H.
  - apply Qle_bool_iff in H; rewrite H; reflexivity.
  - destruct (Qle_bool _ _) eqn:E; [|reflexivity].
    apply Qle_bool_iff in E; apply Qlt_not_le in H; contradiction.
Qed.

(** X9: between signal changes the equity either stays put or follows
    the price: with [MACD <= Signal] at [t-1] (and at [t-2] when
    [t >= 2]) the equity of period [t] equals that of [t-1]; with
    [MACD > Signal] at [t-1] and [t-2] it moves by the price ratio
    [Close[t] / Close[t-1]], commission-free. *)
Theorem equity_between_changes :
  forall d m, run_backtest d = Ok m ->
  let c := StockData.closes d in
  let macd := StockData.macd d in
  let sig := StockData.macd_signal d in
  let eq := BacktestMetrics.equity_curve m in
  (forall t, (1 <= t < length c)%nat ->
     nth (t - 1) macd 0 <= nth (t - 1) sig 0 ->
     (t = 1%nat \/ nth (t - 2) macd 0 <= nth (t - 2) sig 0) ->
     nth t eq 0 == nth (t - 1) eq 0)
  /\ (forall t, (2 <= t < length c)%nat ->
        nth (t - 1) sig 0 < nth (t - 1) macd 0 ->
        nth (t - 2) sig 0 < nth (t - 2) macd 0 ->
        ~ nth (t - 1) c 0 == 0 ->
        nth t eq 0 * nth (t - 1) c 0 == nth (t - 1) eq 0 * nth t c 0).
Proof.
  intros d m Hrun c macd sig eq; unfold c, macd, sig, eq.
  destruct (run_lengths d m Hrun) as (Hm & Hs & _).
  split.
  - intros [|j] Hj H1 H2; [lia|].
    replace (S j - 1)%nat with j in * by lia.
    rewrite (run_equity_S d m j Hrun) by lia.
    rewrite (run_return_S d m j Hrun) by lia.
    cbn [run_lag].
    rewrite (proj1 (target_at d Hm Hs j ltac:(lia)) H1).
    destruct j as [|j].
    + cbn [run_lag]; change (Qabs (inject_Z 0 - 0)) with 0; ring.
    + destruct H2 as [H2|H2]; [lia|].
      replace (S (S j) - 2)%nat with j in H2 by lia.
      cbn [run_lag].
      rewrite (proj1 (target_at d Hm Hs j ltac:(lia)) H2).
      change (Qabs (inject_Z 0 - inject_Z 0)) with 0; ring.
  - intros [|[|j]] Hj H1 H2 Hc; try lia.
    replace (S (S j) - 1)%nat with (S j) in * by lia.
    replace (S (S j) - 2)%nat with j in * by lia.
    rewrite (run_equity_S d m (S j) Hrun) by lia.
    rewrite (run_return_S d m (S j) Hrun) by lia.
    cbn [run_lag].
    rewrite (proj2 (target_at d Hm Hs (S j) ltac:(lia)) H1).
    rewrite (proj2 (target_at d Hm Hs j ltac:(lia)) H2).
    change (Qabs (inject_Z 1 - inject_Z 1)) with 0.
    field; exact Hc.
Qed.

Lemma spec_flat_nil (target : list Z) li k r :
  spec_flat target li (seq k r) = []
  <-> forall j, (k <= j < k + r)%nat -> (nth j target 0 <> 1)%Z.
Proof.
  revert k; induction r as [|r IH]; intros k; simpl.
  - split; auto; intros _ j Hj; lia.
  - destruct (nth k target 0 =? 1)%Z eqn:E.
    + destruct (spec_open_head target li k (seq (S k) r)) as (x & rest & Eo).
      rewrite Eo; split; [discriminate|].
      intros H; exfalso; apply (H k); [lia|apply Z.eqb_eq, E].
    + rewrite IH; split.
      * intros H j Hj; destruct (Nat.eq_dec j k) as [->|Hne].
        -- apply Z.eqb_neq, E.
        -- apply H; lia.
      * intros H j Hj; apply H; lia.
Qed.

(** X10: a run has no trade, and no buy signal, exactly when [MACD] never
    rises above [Signal]. *)
Theorem no_trades_iff_never_signalled :
  forall d m, run_backtest d = Ok m ->
  (BacktestMetrics.trades m = []
   <-> forall t, (t < length (StockData.closes d))%nat ->
       nth t (StockData.macd d) 0 <= nth t (StockData.macd_signal d) 0)
  /\ (BacktestMetrics.buy_signals m = [] <-> BacktestMetrics.trades m = []).
Proof.
  intros d m Hrun.
  destruct (run_lengths d m Hrun) as (Hm & Hs & _).
  destruct (run_trade_pairs d m Hrun) as (Ht & Hb & _).
  set (target := Frame.Target (signals (2 # 1000) (StockData.closes d)
                   (StockData.macd d) (StockData.macd_signal d))) in *.
  set (P := spec_flat target (length (StockData.closes d) - 1)
              (seq 0 (length (StockData.closes d)))) in *.
  assert (HP : BacktestMetrics.trades m = [] <-> P = []).
  { rewrite Ht; destruct P; simpl; split; auto; discriminate. }
  split.
  - rewrite HP; unfold P; rewrite spec_flat_nil; split.
    + intros H t Ht'.
      specialize (H t ltac:(lia)); unfold target in H.
      rewrite nth_Target in H by auto.
      destruct (Qle_bool _ _) eqn:E; [apply Qle_bool_iff, E|].
      exfalso; apply H; reflexivity.
    + intros H j Hj; unfold target.
      rewrite (proj1 (target_at d Hm Hs j ltac:(lia)) (H j ltac:(lia))).
      discriminate.
  - rewrite HP, Hb; destruct P; simpl; split; auto; discriminate.
Qed.

(** X11: when [MACD] never rises above [Signal] the strategy stays out
    of the market: no trade and no signal is reported, the equity stays
    at the initial capital in every period, and the total return, the
    win rate and the maximum drawdown are all zero. *)
Theorem flat_run :
  forall d m, run_backtest d = Ok m ->
  (forall t, (t < length (StockData.closes d))%nat ->
     nth t (StockData.macd d) 0 <= nth t (StockData.macd_signal d) 0) ->
  BacktestMetrics.trades m = []
  /\ BacktestMetrics.buy_signals m = []
  /\ BacktestMetrics.sell_signals m = []
  /\ (forall t, (t < length (BacktestMetrics.equity_curve m))%nat ->
        nth t (BacktestMetrics.equity_curve m) 0
        == BacktestMetrics.initial_capital m)
  /\ BacktestMetrics.final_equity m == BacktestMetrics.initial_capital m
  /\ BacktestMetrics.total_return m == 0
  /\ BacktestMetrics.win_rate m == 0
  /\ BacktestMetrics.max_drawdown m == 0.
Proof.
  intros d m Hrun Hflat.
  destruct (run_lengths d m Hrun) as (Hm & Hs & _).
  destruct (run_fields d m Hrun)
    as (_ & Hcap & _ & He & Hl & _ & Hdd & Hmax & _).
  destruct (run_fields_more d m Hrun) as (Htr & _).
  destruct (run_trade_pairs d m Hrun) as (Htrs & Hb & Hsl & _).
  destruct (run_length_equity d m Hrun) as [Le Lr].
  pose proof (run_nonempty d m Hrun) as Hne.
  set (n := length (StockData.closes d)) in *.
  assert (Hn : (0 < n)%nat)
    by (unfold n; destruct (StockData.closes d); [congruence|simpl; lia]).
  set (target := Frame.Target (signals (2 # 1000) (StockData.closes d)
                   (StockData.macd d) (StockData.macd_signal d))) in *.
  assert (Hnil : spec_flat target (n - 1) (seq 0 n) = []).
  { apply spec_flat_nil; intros j Hj; unfold target.
    rewrite (proj1 (target_at d Hm Hs j ltac:(lia)) (Hflat j ltac:(lia))).
    discriminate. }
  assert (Hr0 : forall t, (t < n)%nat -> nth t (BacktestMetrics.returns m) 0 == 0).
  { intros [|j] Hj; [rewrite (run_returns_0 d m Hrun); reflexivity|].
    rewrite (run_return_S d m j Hrun) by exact Hj.
    fold target; cbn [run_lag].
    unfold target; rewrite (proj1 (target_at d Hm Hs j ltac:(lia))
                             (Hflat j ltac:(lia))).
    destruct j as [|j]; cbn [run_lag].
    - change (Qabs (inject_Z 0 - 0)) with 0; ring.
    - rewrite (proj1 (target_at d Hm Hs j ltac:(lia)) (Hflat j ltac:(lia))).
      change (Qabs (inject_Z 0 - inject_Z 0)) with 0; ring. }
  assert (Heq : forall t, (t < n)%nat ->
            nth t (BacktestMetrics.equity_curve m) 0 == 1000000).
  { intros t Ht; rewrite He.
    rewrite nth_scaled_cumprod by (rewrite length_map; lia).
    assert (Hp : forall k, (k <= S t)%nat ->
               prod (firstn k (map (Qplus 1) (BacktestMetrics.returns m))) == 1).
    { induction k as [|k IH]; intros Hk; [reflexivity|].
      rewrite prod_firstn_S by (rewrite length_map; lia).
      rewrite IH by lia.
      rewrite (nth_map_opt _ _ _ 0) by lia.
      rewrite (Hr0 k) by lia; reflexivity. }
    rewrite (Hp (S t)) by lia; reflexivity. }
  assert (Hfin : BacktestMetrics.final_equity m == 1000000).
  { rewrite (py_last_last _ _ 0 Hl), last_nth, Le; apply Heq; lia. }
  split; [rewrite Htrs; fold n target; rewrite Hnil; reflexivity|].
  split; [rewrite Hb; fold n target; rewrite Hnil; reflexivity|].
  split; [rewrite Hsl; fold n target; rewrite Hnil; reflexivity|].
  split; [intros t Ht; rewrite Hcap; apply Heq; lia|].
  split; [rewrite Hcap; exact Hfin|].
  split; [rewrite Htr, Hfin; reflexivity|].
  split.
  - apply (win_rate_zero_iff d m Hrun).
    intros t Ht; rewrite (Hr0 t) by lia; apply Qle_refl.
  - rewrite Hmax, Hdd.
    set (eq := BacktestMetrics.equity_curve m) in *.
    assert (Hdne : zipw (fun e p => (e / p - 1) * 100) eq (cummax eq) <> []).
    { intros E; pose proof (length_drawdown eq) as L; rewrite E in L.
      simpl in L; lia. }
    destruct (smin_spec _ Hdne) as [_ (t & Ht & Hat)].
    rewrite length_drawdown in Ht.
    rewrite Hat, (nth_zipw _ _ _ _ 0 0) by (rewrite ?length_cummax; lia).
    destruct (cummax_spec eq t Ht) as [_ (j & Hj & Hpj)].
    rewrite Hpj, (Heq t), (Heq j) by lia.
    reflexivity.
Qed.

Lemma filter_map_S (p : nat -> bool) l :
  filter p (map S l) = map S (filter (fun t => p (S t)) l).
Proof.
  induction l as [|x l IH]; simpl; auto.
  destruct (p (S x)); simpl; rewrite IH; reflexivity.
Qed.

(** [df[mask][col]] reads [col] at the row numbers where [mask] holds. *)
Lemma select_seq {A} (mask : list bool) (col : list A) (d : A) :
  length mask = length col ->
  select mask col
  = map (fun t => nth t col d)
      (filter (fun t => nth t mask false) (seq 0 (length col))).
Proof.
  unfold select; revert col; induction mask as [|b mask IH];
    intros [|x col] H; simpl in *; try lia; auto.
  rewrite <- seq_shift, filter_map_S.
  destruct b; simpl; rewrite map_map, IH by lia; reflexivity.
Qed.

Lemma smean_some (l : list Q) :
  l <> [] ->
  smean (map Some l) = Some (sumq l / inject_Z (Z.of_nat (length l))).
Proof.
  intros Hne; unfold smean.
  assert (E : flat_map (fun o => match o with Some x => [x] | None => [] end)
                (map Some l) = l)
    by (induction l as [|x l IH]; simpl; auto;
        destruct l; [reflexivity|rewrite IH; [reflexivity|discriminate]]).
  rewrite E; destruct l; [congruence|reflexivity].
Qed.

Lemma sumq_ext {A} (f g : A -> Q) l :
  (forall x, In x l -> f x == g x) -> sumq (map f l) == sumq (map g l).
Proof.
  induction l as [|x l IH]; intros H; simpl; [reflexivity|].
  rewrite (H x (or_introl eq_refl)), IH; [reflexivity|].
  intros y Hy; apply H; right; exact Hy.
Qed.

Lemma sumq_pos {A} (f : A -> Q) l :
  l <> [] -> (forall x, In x l -> 0 < f x) -> 0 < sumq (map f l).
Proof.
  induction l as [|x l IH]; intros Hne H; [congruence|simpl].
  assert (Hx : 0 < f x) by (apply H; left; reflexivity).
  destruct l as [|y l]; simpl; [rewrite Qplus_0_r; exact Hx|].
  assert (0 < sumq (map f (y :: l)))
    by (apply IH; [discriminate|intros z Hz; apply H; right; exact Hz]).
  simpl in H0; lra.
Qed.

Lemma length_signal_strength commission close macd signal :
  length macd = length close -> length signal = length close ->
  length (signal_strength (signals commission close macd signal))
  = length close.
Proof.
  intros Hm Hs; unfold signal_strength; simpl.
  rewrite !length_zipw; lia.
Qed.

Lemma nth_signal_strength commission close macd signal t :
  length macd = length close -> length signal = length close ->
  (t < length close)%nat ->
  nth t (signal_strength (signals commission close macd signal)) 0
  = Qabs (nth t macd 0 - nth t signal 0) / nth t close 0.
Proof.
  intros Hm Hs Ht; unfold signal_strength; simpl.
  rewrite (nth_zipw _ _ _ _ 0 0) by (rewrite ?length_zipw; lia).
  rewrite (nth_zipw _ _ _ _ 0 0) by lia.
  reflexivity.
Qed.

(** X12: the confidence ratio is 1000 times the mean of
    [(MACD - Signal) / Close] over the periods with [MACD > Signal],
    hence positive when closes are; it is the default 50 exactly when
    there is no such period. *)
Theorem confidence_ratio_mean :
  forall commission close macd signal,
  length macd = length close -> length signal = length close ->
  (forall t, (t < length close)%nat -> 0 < nth t close 0) ->
  let f := signals commission close macd signal in
  let long := filter (fun t => negb (Qle_bool (nth t macd 0) (nth t signal 0)))
                (seq 0 (length close)) in
  (long = [] -> confidence_ratio f = 50)
  /\ (long <> [] ->
      0 < confidence_ratio f
      /\ confidence_ratio f * inject_Z (Z.of_nat (length long))
         == 1000 * sumq (map (fun t => (nth t macd 0 - nth t signal 0)
                                       / nth t close 0) long)).
Proof.
  intros commission close macd signal Hm Hs Hpos f long.
  assert (Hsel : select (map (fun z => (z =? 1)%Z) (Frame.Target f))
                   (signal_strength f)
                 = map (fun t => Qabs (nth t macd 0 - nth t signal 0)
                                 / nth t close 0) long).
  { rewrite (select_seq _ _ 0)
      by (rewrite length_map; unfold f;
          rewrite length_Target, length_signal_strength by auto; reflexivity).
    unfold f; rewrite length_signal_strength by auto.
    unfold long; rewrite map_ext_in with
      (g := fun t => Qabs (nth t macd 0 - nth t signal 0) / nth t close 0)
      by (intros t Ht; apply filter_In in Ht as [Ht _];
          apply in_seq in Ht; apply nth_signal_strength; auto; lia).
    f_equal; apply filter_ext_in; intros t Ht; apply in_seq in Ht.
    rewrite (nth_map_opt _ _ _ 0%Z) by (rewrite length_Target; auto; lia).
    rewrite nth_Target by (auto; lia).
    destruct (Qle_bool _ _); reflexivity. }
  unfold confidence_ratio; rewrite Hsel; split.
  - intros E; rewrite E; reflexivity.
  - intros Hne.
    rewrite smean_some by (destruct long; [congruence|discriminate]).
    rewrite length_map.
    assert (Hk : 0 < inject_Z (Z.of_nat (length long)))
      by (destruct long; [congruence|unfold Qlt; simpl; lia]).
    assert (Hterm : forall t, In t long ->
              Qabs (nth t macd 0 - nth t signal 0) / nth t close 0
              == (nth t macd 0 - nth t signal 0) / nth t close 0
              /\ 0 < (nth t macd 0 - nth t signal 0) / nth t close 0).
    { intros t Ht; unfold long in Ht; apply filter_In in Ht as [Hin Hlt].
      apply in_seq in Hin.
      destruct (Qle_bool _ _) eqn:E; [discriminate|].
      assert (Hgt : nth t signal 0 < nth t macd 0)
        by (apply Qnot_le_lt; intros Hle; apply Qle_bool_iff in Hle;
            rewrite Hle in E; discriminate).
      rewrite Qabs_pos by lra; split; [reflexivity|].
      apply Qlt_shift_div_l; [apply Hpos; lia|]; lra. }
    rewrite (sumq_ext _ (fun t => (nth t macd 0 - nth t signal 0)
                                  / nth t close 0))
      by (intros t Ht; apply Hterm, Ht).
    assert (Hsum : 0 < sumq (map (fun t => (nth t macd 0 - nth t signal 0)
                                           / nth t close 0) long))
      by (apply sumq_pos; [exact Hne|intros t Ht; apply Hterm, Ht]).
    split.
    + apply Qmult_lt_0_compat; [|reflexivity].
      apply Qlt_shift_div_l; [exact Hk|]; rewrite Qmult_0_l; exact Hsum.
    + field; intros Z; rewrite Z in Hk; discriminate.
Qed.

Lemma sumq_filter {A} (e : A -> bool) (R : A -> Q) l :
  sumq (map (fun t => if e t then R t else 0) l) == sumq (map R (filter e l)).
Proof.
  induction l as [|x l IH]; cbn [map filter]; [reflexivity|].
  unfold sumq in *; destruct (e x); cbn [map fold_right]; rewrite IH; ring.
Qed.

Lemma inject_Z_of_nat_S k :
  inject_Z (Z.of_nat (S k)) == inject_Z (Z.of_nat k) + 1.
Proof. rewrite Nat2Z.inj_succ, <- Z.add_1_r, inject_Z_plus; reflexivity. Qed.

Lemma sumq_minus_const {A} (h : A -> Q) (c : Q) l :
  sumq (map (fun t => h t - c) l)
  == sumq (map h l) - c * inject_Z (Z.of_nat (length l)).
Proof.
  induction l as [|x l IH]; cbn [map sumq fold_right length];
    [unfold inject_Z; ring|].
  unfold sumq in IH; rewrite IH, inject_Z_of_nat_S; ring.
Qed.

Lemma target_01 commission close macd signal j :
  let t := nth j (Frame.Target (signals commission close macd signal)) 0%Z in
  t = 0%Z \/ t = 1%Z.
Proof.
  intros t; subst t; unfold signals, where_gt; simpl.
  revert j signal; induction macd as [|x macd IH]; intros j [|y signal];
    simpl; destruct j; auto; try apply IH; destruct (Qle_bool x y); auto.
Qed.

Section AvgTradeReturn.
Variables (commission : Q) (close macd signal : list Q).
Hypothesis Hmacd : length macd = length close.
Hypothesis Hsignal : length signal = length close.

Let f := signals commission close macd signal.
Let n := length close.
Let pos := lagged_target (Frame.Target f).

Lemma length_Position_Change : length (Frame.Position_Change f) = n.
Proof.
  change (Frame.Position_Change f) with (sabs (diff (Frame.Position f))).
  unfold sabs; rewrite length_map, length_diff.
  apply length_Position; auto.
Qed.

Lemma nth_Position_Change_S j :
  (S j < n)%nat ->
  nth (S j) (Frame.Position_Change f) None
  = Some (Qabs (inject_Z (pos (S j)) - inject_Z (pos j))).
Proof.
  intros Hj; pose proof (length_Position commission _ _ _ Hmacd Hsignal) as HP.
  change (Frame.Position_Change f) with (sabs (diff (Frame.Position f))).
  unfold sabs.
  rewrite (nth_map_opt _ _ _ None) by (rewrite length_diff; fold f in HP; lia).
  rewrite nth_diff_S by (fold f in HP; lia).
  unfold f; rewrite !nth_Position by (auto; lia).
  destruct j; reflexivity.
Qed.

Lemma nth_Strategy_Returns_pos j :
  (S j < n)%nat ->
  nth (S j) (Frame.Strategy_Returns f) None
  = Some (inject_Z (pos (S j)) * (nth (S j) close 0 / nth j close 0 - 1)
          - Qabs (inject_Z (pos (S j)) - inject_Z (pos j)) * commission).
Proof.
  intros Hj; unfold f; rewrite nth_Strategy_Returns_S by auto.
  destruct j; reflexivity.
Qed.
End AvgTradeReturn.

(** X13: [avg_trade_return] is never NaN: it is [0] when the position
    never changes, and otherwise [100] times the mean net return over
    the periods where it changes.  Exits earn nothing and every change
    pays the commission, so that mean is the sum of the entry periods'
    price returns, less the commission per change, over the number of
    changes. *)
Theorem avg_trade_return_mean :
  forall commission close macd signal,
  length macd = length close -> length signal = length close ->
  let f := signals commission close macd signal in
  let pos := lagged_target (Frame.Target f) in
  let chg := filter (fun t => negb (Z.eqb (pos t) (pos (t - 1)%nat)))
               (seq 1 (length close - 1)) in
  let entries := filter (fun t => Z.eqb (pos t) 1) chg in
  exists a, avg_trade_return f = Some a
  /\ (chg = [] -> a == 0)
  /\ (chg <> [] ->
      a * inject_Z (Z.of_nat (length chg))
      == 100 * sumq (map (fun t => nth t close 0 / nth (t - 1)%nat close 0 - 1)
                      entries)
         - 100 * commission * inject_Z (Z.of_nat (length chg))).
Proof.
  intros commission close macd signal Hm Hs f pos chg entries.
  set (n := length close).
  pose proof (length_Position commission _ _ _ Hm Hs) as LP; fold f n in LP.
  assert (Hpos01 : forall t, pos t = 0%Z \/ pos t = 1%Z).
  { intros [|j]; [left; reflexivity|apply target_01]. }
  assert (LSR : length (Frame.Strategy_Returns f) = n)
    by (apply length_Strategy_Returns; auto).
  assert (LPC : length (Frame.Position_Change f) = n)
    by (apply length_Position_Change; auto).
  assert (Hmask : filter (fun t => nth t (map gt0 (Frame.Position_Change f)) false)
                    (seq 0 n) = chg).
  { unfold chg; fold n; destruct n as [|n'] eqn:En; [reflexivity|].
    cbn [seq filter].
    assert (H0 : nth 0 (map gt0 (Frame.Position_Change f)) false = false).
    { rewrite (nth_map_opt _ _ _ None) by lia.
      change (Frame.Position_Change f) with (sabs (diff (Frame.Position f))).
      unfold sabs; rewrite (nth_map_opt _ _ _ None)
        by (rewrite length_diff; lia).
      rewrite nth_diff_0; [reflexivity|].
      intros E; rewrite E in LP; simpl in LP; lia. }
    rewrite H0; replace (S n' - 1)%nat with n' by lia.
    apply filter_ext_in; intros t Ht; apply in_seq in Ht.
    destruct t as [|j]; [lia|].
    rewrite (nth_map_opt _ _ _ None) by lia.
    unfold f; rewrite nth_Position_Change_S by (auto; lia).
    fold f; fold pos; replace (S j - 1)%nat with j by lia.
    destruct (Hpos01 (S j)) as [-> | ->]; destruct (Hpos01 j) as [-> | ->];
      reflexivity. }
  set (g := fun t => inject_Z (pos t) * (nth t close 0 / nth (t - 1)%nat close 0 - 1)
                     - Qabs (inject_Z (pos t) - inject_Z (pos (t - 1)%nat))
                       * commission).
  assert (Hrows : select (map gt0 (Frame.Position_Change f))
                    (Frame.Strategy_Returns f)
                  = map Some (map g chg)).
  { rewrite (select_seq _ _ None) by (rewrite length_map; lia).
    rewrite LSR, Hmask, map_map.
    apply map_ext_in; intros t Ht.
    unfold chg in Ht; apply filter_In in Ht as [Ht _]; apply in_seq in Ht.
    destruct t as [|j]; [lia|].
    unfold f; rewrite (nth_Strategy_Returns_pos commission close macd signal
                         Hm Hs j) by (unfold n in *; lia).
    unfold g; replace (S j - 1)%nat with j by lia; reflexivity. }
  unfold avg_trade_return; rewrite Hrows, !length_map.
  destruct (Nat.ltb_spec 0 (length chg)) as [Hlt|Hle].
  2:{ exists 0; split; [reflexivity|split; [intros _; reflexivity|]].
      intros Hne; destruct chg; [congruence|simpl in Hle; lia]. }
  assert (Hne : chg <> []) by (intros E; rewrite E in Hlt; simpl in Hlt; lia).
  rewrite smean_some by (intros E; apply map_eq_nil in E; congruence).
  rewrite length_map.
  assert (Hk : 0 < inject_Z (Z.of_nat (length chg)))
    by (unfold Qlt; simpl; lia).
  eexists; split; [reflexivity|split; [intros E; congruence|intros _]].
  assert (Hg : sumq (map g chg)
               == sumq (map (fun t => nth t close 0 / nth (t - 1)%nat close 0 - 1)
                          entries)
                  - commission * inject_Z (Z.of_nat (length chg))).
  { set (R := fun t => nth t close 0 / nth (t - 1)%nat close 0 - 1).
    unfold entries.
    rewrite <- (sumq_filter (fun t => Z.eqb (pos t) 1) R chg).
    rewrite <- (sumq_minus_const
                  (fun t => if Z.eqb (pos t) 1 then R t else 0) commission chg).
    apply sumq_ext; intros t Ht.
    assert (Hd : Z.eqb (pos t) (pos (t - 1)%nat) = false).
    { unfold chg in Ht.
      apply filter_In in Ht as [_ Ht]; destruct (Z.eqb (pos t) (pos (t - 1)%nat));
        [discriminate|reflexivity]. }
    unfold g.
    destruct (Hpos01 t) as [E1|E1]; destruct (Hpos01 (t - 1)%nat) as [E2|E2];
      rewrite E1, E2 in *; try discriminate; simpl;
      change (Qabs (inject_Z 0 - inject_Z 1)) with 1;
      change (Qabs (inject_Z 1 - inject_Z 0)) with 1;
      unfold R, inject_Z; ring. }
  rewrite Hg; field; intros Z; rewrite Z in Hk; discriminate.
Qed.

Lemma length_filter_split {A} (p : A -> bool) l :
  (length (filter (fun x => negb (p x)) l) + length (filter p l) = length l)%nat.
Proof.
  induction l as [|x l IH]; simpl; [reflexivity|].
  destruct (p x); simpl; lia.
Qed.

Lemma sumq_nonpos {A} (f : A -> Q) l :
  (forall x, In x l -> f x <= 0) -> sumq (map f l) <= 0.
Proof.
  induction l as [|x l IH]; intros H; simpl; [apply Qle_refl|].
  assert (f x <= 0) by (apply H; left; reflexivity).
  assert (sumq (map f l) <= 0)
    by (apply IH; intros z Hz; apply H; right; exact Hz).
  unfold sumq in *; lra.
Qed.

Lemma Qle_bool_shift a b :
  Qle_bool (a - b) 0 = Qle_bool a b.
Proof.
  destruct (Qle_bool (a - b) 0) eqn:E1, (Qle_bool a b) eqn:E2;
    try reflexivity; exfalso.
  - apply Qle_bool_iff in E1.
    assert (~ a <= b) by (intros H; rewrite <- Qle_bool_iff in H; congruence).
    lra.
  - apply Qle_bool_iff in E2.
    assert (~ a - b <= 0) by (intros H; rewrite <- Qle_bool_iff in H; congruence).
    lra.
Qed.

Lemma non_overlapping_In lo ps e x :
  non_overlapping lo ps -> In (e, x) ps -> (e <= x)%nat.
Proof.
  revert lo; induction ps as [|[e' x'] ps IH]; intros lo H Hin; simpl in *;
    [contradiction|].
  destruct Hin as [E|Hin]; [injection E as -> ->; lia|].
  apply (IH (S x')); tauto.
Qed.

(** X14: the trade-history summary of a run.  Every trade is counted once,
    as a win or as a loss; a trade wins exactly when its exit price beats
    its entry price plus the round-trip commission; the average win is
    positive when there is a win and [0] otherwise; the average loss is
    never positive. *)
Theorem trade_summary_run :
  forall d m, run_backtest d = Ok m ->
  let trs := BacktestMetrics.trades m in
  let s := trade_summary trs in
  (TradeSummary.winning_trades s + TradeSummary.losing_trades s
   = BacktestMetrics.total_trades m)%nat
  /\ TradeSummary.winning_trades s
     = length (filter (fun tr => negb (Qle_bool (TradeRecord.exit_price tr)
                                        ((1004 # 1000) * TradeRecord.entry_price tr)))
                 trs)
  /\ (TradeSummary.winning_trades s = 0%nat -> TradeSummary.avg_win s = 0)
  /\ ((0 < TradeSummary.winning_trades s)%nat -> 0 < TradeSummary.avg_win s)
  /\ TradeSummary.avg_loss s <= 0.
Proof.
  intros d m Hrun trs s.
  destruct (run_trade_pairs d m Hrun) as (Ht & _ & _ & Hn & _).
  assert (Htot : BacktestMetrics.total_trades m = length trs)
    by (unfold trs; rewrite Ht, Hn, length_map; reflexivity).
  unfold s, trade_summary; cbn [TradeSummary.winning_trades
    TradeSummary.losing_trades TradeSummary.avg_win TradeSummary.avg_loss].
  split; [rewrite Htot; apply length_filter_split|].
  split.
  { apply (f_equal (@length _)); apply filter_ext_in; intros tr Htr.
    unfold trs in Htr; rewrite Ht in Htr.
    apply in_map_iff in Htr as [[e x] [<- _]].
    simpl; f_equal.
    setoid_replace (nth x (StockData.closes d) 0 - nth e (StockData.closes d) 0
                    - nth e (StockData.closes d) 0 * (2 # 1000) * 2)
      with (nth x (StockData.closes d) 0 - (1004 # 1000) * nth e (StockData.closes d) 0)
      by ring.
    apply Qle_bool_shift. }
  split; [intros E; rewrite E; reflexivity|].
  split.
  - intros Hw; destruct (Nat.ltb_spec 0
      (length (filter (fun t => negb (Qle_bool (TradeRecord.profit_loss t) 0)) trs)))
      as [_|]; [|lia].
    apply Qlt_shift_div_l; [unfold Qlt; simpl; lia|].
    rewrite Qmult_0_l; apply sumq_pos.
    + intros E; rewrite E in Hw; simpl in Hw; lia.
    + intros tr Htr; apply filter_In in Htr as [_ Htr].
      destruct (Qle_bool (TradeRecord.profit_loss tr) 0) eqn:E; [discriminate|].
      apply Qnot_le_lt; intros H; apply Qle_bool_iff in H; congruence.
  - destruct (Nat.ltb_spec 0
      (length (filter (fun t => Qle_bool (TradeRecord.profit_loss t) 0) trs)))
      as [Hl|]; [|apply Qle_refl].
    apply Qle_shift_div_r; [unfold Qlt; simpl; lia|].
    rewrite Qmult_0_l; apply sumq_nonpos.
    intros tr Htr; apply filter_In in Htr as [_ Htr].
    apply Qle_bool_iff; exact Htr.
Qed.

(** X15: the percentage profit of a run's trade, when every close is
    positive: it is the price ratio less [1] and the round-trip
    commission, in percent, so it exceeds [-100.4]; and it has the sign
    of the profit. *)
Theorem trade_return_pct :
  forall d m, run_backtest d = Ok m ->
  (forall t, (t < length (StockData.closes d))%nat ->
             0 < nth t (StockData.closes d) 0) ->
  forall tr, In tr (BacktestMetrics.trades m) ->
  TradeRecord.profit_loss_pct tr
  == (TradeRecord.exit_price tr / TradeRecord.entry_price tr - (1004 # 1000)) * 100
  /\ -(1004 # 10) < TradeRecord.profit_loss_pct tr
  /\ (0 < TradeRecord.profit_loss tr <-> 0 < TradeRecord.profit_loss_pct tr).
Proof.
  intros d m Hrun Hpos tr Hin.
  destruct (run_trade_pairs d m Hrun) as (Ht & _ & _ & _ & Hno & Hok).
  rewrite Ht in Hin; apply in_map_iff in Hin as [[e x] [<- HP]].
  assert (Hex : (e <= x)%nat) by (eapply non_overlapping_In; eauto).
  rewrite Forall_forall in Hok; destruct (Hok _ HP) as (_ & Hx & _).
  simpl in Hx.
  pose proof (Hpos e ltac:(lia)) as He; pose proof (Hpos x Hx) as Hx'.
  set (ce := nth e (StockData.closes d) 0) in *.
  set (cx := nth x (StockData.closes d) 0) in *.
  simpl; fold ce cx.
  assert (Hpct : (cx - ce - ce * (2 # 1000) * 2) / ce * 100
                 == (cx / ce - (1004 # 1000)) * 100)
    by (field; intros Z; rewrite Z in He; discriminate).
  split; [exact Hpct|]; rewrite Hpct.
  assert (Hr : 0 < cx / ce)
    by (apply Qlt_shift_div_l; [exact He|rewrite Qmult_0_l; exact Hx']).
  split; [lra|].
  split; intros H.
  - assert (H1 : (1004 # 1000) < cx / ce).
    { apply Qlt_shift_div_l; [exact He|lra]. }
    lra.
  - assert (H1 : (1004 # 1000) < cx / ce) by lra.
    apply (Qmult_lt_r _ _ ce He) in H1.
    setoid_replace (cx / ce * ce) with cx in H1
      by (field; intros Z; rewrite Z in He; discriminate).
    lra.
Qed.

(** X16: the annualised returns of lines 58 and 78 can end a run with
    an exception: a thousandfold rise of the price over two periods makes
    the market's [1000 ** 126] overflow, and a negative final equity over
    five periods makes the CAGR complex, which [float()] refuses. *)
Theorem annualized_return_failures :
  run_backtest overflow_input = Err OverflowError
  /\ run_backtest negative_equity_input = Err TypeError.
Proof. split; vm_compute; reflexivity. Qed.

(** ** Witnesses of the further properties *)

Lemma total_return_compounded_witness :
  run_backtest scenario = Ok (metrics_of scenario)
  /\ BacktestMetrics.total_return (metrics_of scenario)
     == (prod (map (Qplus 1) (BacktestMetrics.returns (metrics_of scenario)))
         - 1) * 100.
Proof.
  assert (H : run_backtest scenario = Ok (metrics_of scenario))
    by (vm_compute; reflexivity).
  split; [exact H|].
  destruct (total_return_compounded scenario _ H) as [_ Hp]; exact Hp.
Defined.

Lemma win_rate_range_witness :
  run_backtest scenario = Ok (metrics_of scenario)
  /\ 0 <= BacktestMetrics.win_rate (metrics_of scenario) <= 100.
Proof.
  assert (H : run_backtest scenario = Ok (metrics_of scenario))
    by (vm_compute; reflexivity).
  split; [exact H|].
  destruct (win_rate_range scenario _ H) as [Hr _]; exact Hr.
Defined.

Lemma market_buy_and_hold_witness :
  run_backtest scenario = Ok (metrics_of scenario)
  /\ BacktestMetrics.market_total_return (metrics_of scenario)
     == (last (StockData.closes scenario) 0
         / nth 0 (StockData.closes scenario) 0 - 1) * 100.
Proof.
  assert (H : run_backtest scenario = Ok (metrics_of scenario))
    by (vm_compute; reflexivity).
  split; [exact H|].
  destruct (market_buy_and_hold scenario _ H) as [_ Hm].
  - intros [|[|[|[|[|t]]]]] Ht; simpl in Ht; try lia;
      intros E; vm_compute in E; discriminate.
  - exact Hm.
Defined.

Lemma market_max_drawdown_prices_witness :
  run_backtest scenario = Ok (metrics_of scenario)
  /\ -100 < BacktestMetrics.market_max_drawdown (metrics_of scenario) <= 0.
Proof.
  assert (H : run_backtest scenario = Ok (metrics_of scenario))
    by (vm_compute; reflexivity).
  split; [exact H|].
  destruct (market_max_drawdown_prices scenario _ H) as [Hm _].
  - intros [|[|[|[|[|t]]]]] Ht; simpl in Ht; try lia; vm_compute; reflexivity.
  - exact Hm.
Defined.

Lemma strategy_max_drawdown_pairs_witness :
  run_backtest scenario = Ok (metrics_of scenario)
  /\ -100 < BacktestMetrics.max_drawdown (metrics_of scenario) <= 0.
Proof.
  assert (H : run_backtest scenario = Ok (metrics_of scenario))
    by (vm_compute; reflexivity).
  split; [exact H|].
  destruct (strategy_max_drawdown_pairs scenario _ H) as (_ & Hm & _).
  - intros t Ht; vm_compute in Ht.
    destruct t as [|[|[|[|[|t]]]]]; try lia; vm_compute; reflexivity.
  - exact Hm.
Defined.

Lemma buy_sell_signals_witness :
  run_backtest scenario = Ok (metrics_of scenario)
  /\ length (BacktestMetrics.buy_signals (metrics_of scenario))
     = BacktestMetrics.total_trades (metrics_of scenario).
Proof.
  assert (H : run_backtest scenario = Ok (metrics_of scenario))
    by (vm_compute; reflexivity).
  split; [exact H|].
  pose proof (buy_sell_signals scenario _ H) as R; cbv zeta in R.
  destruct R as (Hb & _); exact Hb.
Defined.

Lemma trades_match_signals_witness :
  run_backtest scenario = Ok (metrics_of scenario)
  /\ exists tr x,
     nth_error (BacktestMetrics.trades (metrics_of scenario)) 0 = Some tr
     /\ nth_error (BacktestMetrics.sell_signals (metrics_of scenario)) 0 = Some x
     /\ TradeRecord.exit_price tr = nth x (StockData.closes scenario) 0.
Proof.
  assert (H : run_backtest scenario = Ok (metrics_of scenario))
    by (vm_compute; reflexivity).
  split; [exact H|].
  destruct (nth_error (BacktestMetrics.trades (metrics_of scenario)) 0)
    as [tr|] eqn:Etr; [|vm_compute in Etr; discriminate].
  destruct (trades_match_signals scenario _ H 0%nat tr Etr)
    as (e & x & _ & Hs & _ & Hx & _).
  exists tr, x; split; [reflexivity|split; [exact Hs|exact Hx]].
Defined.

Lemma equity_between_changes_witness :
  run_backtest scenario = Ok (metrics_of scenario)
  /\ nth 3 (BacktestMetrics.equity_curve (metrics_of scenario)) 0
     * nth 2 (StockData.closes scenario) 0
     == nth 2 (BacktestMetrics.equity_curve (metrics_of scenario)) 0
        * nth 3 (StockData.closes scenario) 0.
Proof.
  assert (H : run_backtest scenario = Ok (metrics_of scenario))
    by (vm_compute; reflexivity).
  split; [exact H|].
  pose proof (equity_between_changes scenario _ H) as R; cbv zeta in R.
  destruct R as [_ R].
  apply (R 3%nat).
  - simpl; lia.
  - vm_compute; reflexivity.
  - vm_compute; reflexivity.
  - intros E; vm_compute in E; discriminate.
Defined.

Lemma no_trades_iff_never_signalled_witness :
  run_backtest scenario = Ok (metrics_of scenario)
  /\ (BacktestMetrics.buy_signals (metrics_of scenario) = []
      <-> BacktestMetrics.trades (metrics_of scenario) = []).
Proof.
  assert (H : run_backtest scenario = Ok (metrics_of scenario))
    by (vm_compute; reflexivity).
  split; [exact H|].
  destruct (no_trades_iff_never_signalled scenario _ H) as [_ Hb]; exact Hb.
Defined.

Lemma flat_run_witness :
  run_backtest flat_input = Ok (metrics_of flat_input)
  /\ BacktestMetrics.final_equity (metrics_of flat_input)
     == BacktestMetrics.initial_capital (metrics_of flat_input).
Proof.
  assert (H : run_backtest flat_input = Ok (metrics_of flat_input))
    by (vm_compute; reflexivity).
  split; [exact H|].
  destruct (flat_run flat_input _ H) as (_ & _ & _ & _ & Hf & _).
  - intros [|[|t]] Ht; simpl in Ht; try lia; vm_compute; intros E; discriminate.
  - exact Hf.
Defined.

Lemma confidence_ratio_mean_witness :
  length (StockData.macd scenario) = length (StockData.closes scenario)
  /\ 0 < confidence_ratio (signals (2 # 1000) (StockData.closes scenario)
           (StockData.macd scenario) (StockData.macd_signal scenario)).
Proof.
  split; [reflexivity|].
  pose proof (confidence_ratio_mean (2 # 1000) (StockData.closes scenario)
                (StockData.macd scenario) (StockData.macd_signal scenario)
                eq_refl eq_refl) as R.
  cbv zeta in R; destruct R as [_ R].
  - intros [|[|[|[|[|t]]]]] Ht; simpl in Ht; try lia; vm_compute; reflexivity.
  - apply R; vm_compute; discriminate.
Defined.

Lemma avg_trade_return_mean_witness :
  length (StockData.macd scenario) = length (StockData.closes scenario)
  /\ exists a, avg_trade_return (signals (2 # 1000) (StockData.closes scenario)
                 (StockData.macd scenario) (StockData.macd_signal scenario))
               = Some a.
Proof.
  split; [reflexivity|].
  pose proof (avg_trade_return_mean (2 # 1000) (StockData.closes scenario)
                (StockData.macd scenario) (StockData.macd_signal scenario)
                eq_refl eq_refl) as R.
  cbv zeta in R; destruct R as (a & Ha & _).
  exists a; exact Ha.
Defined.

Lemma trade_summary_run_witness :
  run_backtest scenario = Ok (metrics_of scenario)
  /\ (TradeSummary.winning_trades
        (trade_summary (BacktestMetrics.trades (metrics_of scenario)))
      + TradeSummary.losing_trades
          (trade_summary (BacktestMetrics.trades (metrics_of scenario)))
      = BacktestMetrics.total_trades (metrics_of scenario))%nat.
Proof.
  assert (H : run_backtest scenario = Ok (metrics_of scenario))
    by (vm_compute; reflexivity).
  split; [exact H|].
  pose proof (trade_summary_run scenario _ H) as R; cbv zeta in R.
  destruct R as (Hc & _); exact Hc.
Defined.

Lemma trade_return_pct_witness :
  run_backtest scenario = Ok (metrics_of scenario)
  /\ exists tr, In tr (BacktestMetrics.trades (metrics_of scenario))
     /\ -(1004 # 10) < TradeRecord.profit_loss_pct tr.
Proof.
  assert (H : run_backtest scenario = Ok (metrics_of scenario))
    by (vm_compute; reflexivity).
  split; [exact H|].
  destruct (BacktestMetrics.trades (metrics_of scenario)) as [|tr trs] eqn:E;
    [vm_compute in E; discriminate|].
  assert (Hin : In tr (BacktestMetrics.trades (metrics_of scenario)))
    by (rewrite E; left; reflexivity).
  destruct (trade_return_pct scenario _ H) with (tr := tr) as (_ & Hp & _).
  - intros [|[|[|[|[|t]]]]] Ht; simpl in Ht; try lia; vm_compute; reflexivity.
  - exact Hin.
  - exists tr; split; [left; reflexivity|exact Hp].
Defined.
